(** * A shallow embedding of the StreamableMCPGateway (src/unnamed/part_000,
    the module imported by src/src/index.ts as ./gateway).

    JavaScript strings are lists of UTF-16 code units (Z); a Node [Buffer]
    chunk is a list of bytes (Z in 0..255).  JSON values are the values
    produced by [JSON.parse] / [express.json]; the gateway is a state machine
    driven by the events Node delivers to it (HTTP requests, child-process
    stdout data, 'error' and 'exit', timers, connection close). *)

From Stdlib Require Import String Ascii.
From stdpp Require Import base list gmap.

Set Warnings "-register-all".

Open Scope Z_scope.

(** ** JavaScript strings *)

Abbreviation jstr := (list Z).

(** An ASCII literal as a JS string. *)
Definition js (s : string) : jstr :=
  map (fun a => Z.of_nat (nat_of_ascii a)) (list_ascii_of_string s).

(** [s.trim() !== ''] : some code unit is neither WhiteSpace nor
    LineTerminator (ECMA-262 sec. 12.2, 12.3). *)
Definition js_space (c : Z) : bool :=
  (c =? 9) || (c =? 10) || (c =? 11) || (c =? 12) || (c =? 13) || (c =? 32)
  || (c =? 160) || (c =? 5760) || ((8192 <=? c) && (c <=? 8202))
  || (c =? 8232) || (c =? 8233) || (c =? 8239) || (c =? 8287)
  || (c =? 12288) || (c =? 65279).

Definition trim_nonempty (s : jstr) : bool := existsb (fun c => negb (js_space c)) s.

(** [s.split('\n')]: always at least one piece. *)
Fixpoint split_nl (s : jstr) : list jstr :=
  match s with
  | [] => [[]]
  | c :: r =>
      let rest := split_nl r in
      if c =? 10 then [] :: rest
      else match rest with
           | x :: xs => (c :: x) :: xs
           | [] => [[c]]
           end
  end.

(** ** [Buffer.prototype.toString()] : UTF-8 decoding with replacement
    (the WHATWG UTF-8 decoder that Node uses; each invalid or truncated
    sequence becomes U+FFFD, code points above U+FFFF become surrogate
    pairs). *)

Record u8st := U8 { needed : Z; seen : Z; cp : Z; lower : Z; upper : Z }.

Definition u8init : u8st := U8 0 0 0 128 191.

Definition utf16 (c : Z) : jstr :=
  if c <? 65536 then [c]
  else [55296 + Z.shiftr (c - 65536) 10; 56320 + Z.land (c - 65536) 1023].

(** A byte read in the initial state: emitted code units and new state. *)
Definition u8start (b : Z) : jstr * u8st :=
  if b <=? 127 then ([b], u8init)
  else if (194 <=? b) && (b <=? 223) then ([], U8 1 0 (Z.land b 31) 128 191)
  else if (224 <=? b) && (b <=? 239) then
    ([], U8 2 0 (Z.land b 15) (if b =? 224 then 160 else 128)
            (if b =? 237 then 159 else 191))
  else if (240 <=? b) && (b <=? 244) then
    ([], U8 3 0 (Z.land b 7) (if b =? 240 then 144 else 128)
            (if b =? 244 then 143 else 191))
  else ([65533], u8init).

Fixpoint u8dec (st : u8st) (bs : list Z) : jstr :=
  match bs with
  | [] => if needed st =? 0 then [] else [65533]
  | b :: rest =>
      if needed st =? 0 then
        let '(o, st') := u8start b in o ++ u8dec st' rest
      else if negb ((lower st <=? b) && (b <=? upper st)) then
        (* the byte is reprocessed in the initial state *)
        let '(o, st') := u8start b in 65533 :: o ++ u8dec st' rest
      else
        let c := Z.lor (Z.shiftl (cp st) 6) (Z.land b 63) in
        if seen st + 1 =? needed st then utf16 c ++ u8dec u8init rest
        else u8dec (U8 (needed st) (seen st + 1) c 128 191) rest
  end.

Definition buffer_toString (data : list Z) : jstr := u8dec u8init data.

(** ** JSON values and [JSON.parse]

    A number is kept as [JNum m e] with value [m * 10^e], normalised so that
    equal numbers have equal representations (rounding to doubles is not
    modelled).  An object keeps its members in text order. *)

Inductive json : Type :=
| JNull
| JBool (b : bool)
| JNum (m : Z) (e : Z)
| JStr (s : jstr)
| JArr (l : list json)
| JObj (l : list (jstr * json)).

Fixpoint norm_num (fuel : nat) (m e : Z) : Z * Z :=
  match fuel with
  | O => (m, e)
  | S f => if m =? 0 then (0, 0)
           else if Z.rem m 10 =? 0 then norm_num f (Z.quot m 10) (e + 1)
           else (m, e)
  end.

Definition mk_num (m e : Z) : json :=
  let '(m', e') := norm_num (Z.to_nat (Z.log2_up (Z.abs m) + 1)) m e in JNum m' e'.

Fixpoint skip_ws (s : jstr) : jstr :=
  match s with
  | c :: r => if (c =? 32) || (c =? 9) || (c =? 10) || (c =? 13) then skip_ws r else s
  | [] => []
  end.

Definition is_digit (c : Z) : bool := (48 <=? c) && (c <=? 57).

(** Leading decimal digits: their value, their count, and the rest. *)
Fixpoint digits (acc : Z) (n : Z) (s : jstr) : Z * Z * jstr :=
  match s with
  | c :: r => if is_digit c then digits (acc * 10 + (c - 48)) (n + 1) r else (acc, n, s)
  | [] => (acc, n, s)
  end.

Definition hexval (c : Z) : option Z :=
  if is_digit c then Some (c - 48)
  else if (65 <=? c) && (c <=? 70) then Some (c - 55)
  else if (97 <=? c) && (c <=? 102) then Some (c - 87)
  else None.

(** A number, after an optional minus sign. *)
Definition pnum (s : jstr) : option (json * jstr) :=
  let '(neg, s1) := match s with 45 :: r => (true, r) | _ => (false, s) end in
  match s1 with
  | c :: _ =>
    if negb (is_digit c) then None else
    let '(ip, ni, s2) := digits 0 0 s1 in
    if (c =? 48) && (1 <? ni) then None else
    let fr := match s2 with
              | 46 :: r => let '(f, nf, r') := digits ip 0 r in
                           if nf =? 0 then None else Some (f, nf, r')
              | _ => Some (ip, 0, s2) end in
    match fr with
    | None => None
    | Some (mant, nf, s3) =>
      let ex := match s3 with
                | e :: r => if (e =? 101) || (e =? 69) then
                    let '(sg, r1) := match r with
                                     | 43 :: r1 => (1, r1) | 45 :: r1 => (-1, r1)
                                     | _ => (1, r) end in
                    let '(x, nx, r2) := digits 0 0 r1 in
                    if nx =? 0 then None else Some (sg * x, r2)
                  else Some (0, s3)
                | [] => Some (0, s3) end in
      match ex with
      | None => None
      | Some (x, s4) => Some (mk_num (if neg then - mant else mant) (x - nf), s4)
      end
    end
  | [] => None
  end.

(** The body of a string literal, after the opening quote. *)
Fixpoint pstr (acc : jstr) (s : jstr) : option (jstr * jstr) :=
  match s with
  | [] => None
  | 34 :: r => Some (rev acc, r)
  | 92 :: 117 :: a :: b :: c :: d :: r =>
      match hexval a, hexval b, hexval c, hexval d with
      | Some a', Some b', Some c', Some d' =>
          pstr ((((a' * 16 + b') * 16 + c') * 16 + d') :: acc) r
      | _, _, _, _ => None
      end
  | 92 :: e :: r =>
      if e =? 34 then pstr (34 :: acc) r
      else if e =? 92 then pstr (92 :: acc) r
      else if e =? 47 then pstr (47 :: acc) r
      else if e =? 98 then pstr (8 :: acc) r
      else if e =? 102 then pstr (12 :: acc) r
      else if e =? 110 then pstr (10 :: acc) r
      else if e =? 114 then pstr (13 :: acc) r
      else if e =? 116 then pstr (9 :: acc) r
      else None
  | c :: r => if c <? 32 then None else pstr (c :: acc) r
  end.

Definition parser := jstr -> option (json * jstr).

(** Array elements after the first has been announced. *)
Fixpoint parr (pv : parser) (fuel : nat) (acc : list json) (s : jstr) :
    option (json * jstr) :=
  match fuel with
  | O => None
  | S f =>
    match pv s with
    | None => None
    | Some (v, r) =>
      match skip_ws r with
      | 44 :: r' => parr pv f (v :: acc) r'
      | 93 :: r' => Some (JArr (rev (v :: acc)), r')
      | _ => None
      end
    end
  end.

(** Object members after the first has been announced. *)
Fixpoint pobj (pv : parser) (fuel : nat) (acc : list (jstr * json)) (s : jstr) :
    option (json * jstr) :=
  match fuel with
  | O => None
  | S f =>
    match skip_ws s with
    | 34 :: r =>
      match pstr [] r with
      | None => None
      | Some (k, r1) =>
        match skip_ws r1 with
        | 58 :: r2 =>
          match pv r2 with
          | None => None
          | Some (v, r3) =>
            match skip_ws r3 with
            | 44 :: r' => pobj pv f ((k, v) :: acc) r'
            | 125 :: r' => Some (JObj (rev ((k, v) :: acc)), r')
            | _ => None
            end
          end
        | _ => None
        end
      end
    | _ => None
    end
  end.

Fixpoint pval (fuel : nat) (s : jstr) : option (json * jstr) :=
  match fuel with
  | O => None
  | S f =>
    match skip_ws s with
    | 110 :: 117 :: 108 :: 108 :: r => Some (JNull, r)
    | 116 :: 114 :: 117 :: 101 :: r => Some (JBool true, r)
    | 102 :: 97 :: 108 :: 115 :: 101 :: r => Some (JBool false, r)
    | 34 :: r => match pstr [] r with Some (x, r') => Some (JStr x, r') | None => None end
    | 91 :: r => match skip_ws r with
                 | 93 :: r' => Some (JArr [], r')
                 | _ => parr (pval f) f [] r
                 end
    | 123 :: r => match skip_ws r with
                  | 125 :: r' => Some (JObj [], r')
                  | _ => pobj (pval f) f [] r
                  end
    | s' => pnum s'
    end
  end.

(** [JSON.parse(text)]: [None] when it throws a SyntaxError. *)
Definition JSON_parse (text : jstr) : option json :=
  match pval (S (length text)) text with
  | Some (v, r) => match skip_ws r with [] => Some v | _ => None end
  | None => None
  end.

(** ASCII JSON text written with single quotes for double quotes. *)
Definition jq (s : string) : jstr := map (fun c => if c =? 39 then 34 else c) (js s).

(** ** Property access and JavaScript values *)

(** [obj.k] on a value produced by [JSON.parse] (the last duplicate member
    wins).  Arrays, strings, numbers and booleans have no such own
    property, so the access yields [undefined] ([None]); [null] is handled
    by the callers, where [null.k] throws. *)
Definition get_field (v : json) (k : string) : option json :=
  match v with
  | JObj l => match find (fun kv => if decide (kv.1 = js k) then true else false) (rev l) with
              | Some kv => Some kv.2
              | None => None
              end
  | _ => None
  end.

Definition truthy (v : json) : bool :=
  match v with
  | JNull => false
  | JBool b => b
  | JNum m _ => negb (m =? 0)
  | JStr s => negb (length s =? 0)%nat
  | JArr _ | JObj _ => true
  end.

(** SameValueZero on primitives, the key equality of a JS [Map].  An
    object or array is equal to itself only, never to another value; see
    [key] for how the model names an object. *)
Definition same_value_zero (a b : json) : bool :=
  match a, b with
  | JNull, JNull => true
  | JBool x, JBool y => Bool.eqb x y
  | JNum m e, JNum m' e' => (m =? m') && (e =? e')
  | JStr s, JStr s' => if decide (s = s') then true else false
  | _, _ => false
  end.

(** A JS value used as a key of a [Map].  [KObj h p v] is the object or
    array [v] read from the property [p] of the body of HTTP request [h]
    ([req.body.sessionId], [message.id]): reading that property again gives
    the same object, and no other value is that object.  [KVal v] is a
    primitive [v], or an object or array that no [Map] holds (one just made
    by [JSON.parse] on the backend's output). *)
Inductive key :=
| KVal (v : json)
| KObj (h : nat) (p : string) (v : json).

(** SameValueZero on keys: primitives by value, objects by identity. *)
Definition key_eq (a b : key) : bool :=
  match a, b with
  | KVal x, KVal y => same_value_zero x y
  | KObj h p _, KObj h' p' _ => Nat.eqb h h' && String.eqb p p'
  | _, _ => false
  end.

(** The value a key stands for. *)
Definition key_val (k : key) : json :=
  match k with KVal v => v | KObj _ _ v => v end.

(** The key for the value [v] of [req.body[p]] of request [h]. *)
Definition body_key (h : nat) (p : string) (v : json) : key :=
  match v with
  | JObj _ | JArr _ => KObj h p v
  | _ => KVal v
  end.

(** A JS [Map] as an association list in insertion order. *)
Section JsMap.
Context {V : Type}.

Fixpoint map_get (k : key) (m : list (key * V)) : option V :=
  match m with
  | [] => None
  | (k', v) :: r => if key_eq k k' then Some v else map_get k r
  end.

Definition map_has (k : key) (m : list (key * V)) : bool :=
  match map_get k m with Some _ => true | None => false end.

Fixpoint map_set (k : key) (v : V) (m : list (key * V)) : list (key * V) :=
  match m with
  | [] => [(k, v)]
  | (k', v') :: r => if key_eq k k' then (k', v) :: r else (k', v') :: map_set k v r
  end.

(** [Map.prototype.delete]; a [Map] holds each key once, so removing every
    entry with an equal key removes that one. *)
Definition map_delete (k : key) (m : list (key * V)) : list (key * V) :=
  List.filter (fun kv => negb (key_eq k kv.1)) m.
End JsMap.

(** ** Sessions and the gateway state

    A [Session] object lives in a heap and is referred to by its reference
    [r]; the child process spawned for it is identified by the same [r], so
    the stdout, 'error' and 'exit' handlers registered in [createSession]
    are the events [StdoutData r], [ProcError r] and [ProcExit r].  An HTTP
    request is identified by a number [h]; its [Response] object by the same
    number.  A resolver stored in [pendingRequests] is the [resolve] of the
    promise awaited by the handler of request [h], stored as [h]. *)

Record Session := mkSession {
  s_id : key;
  messageBuffer : jstr;
  sseResponse : option nat;
  pendingRequests : list (key * nat);
  connected : bool }.

(** [setTimeout(cb, delay)] armed by [handleMessage]. *)
Record Timer := mkTimer { t_session : nat; t_id : key; t_req : nat; t_delay : Z }.

(** Observable effects, in the order they happen. *)
Inductive Effect :=
| Spawned (r : nat)                         (* spawn(command, args) *)
| Killed (r : nat)                          (* process.kill('SIGTERM') *)
| StdinWrite (r : nat) (m : json)           (* JSON.stringify(m) + '\n' *)
| HttpResp (h : nat) (status : Z) (body : json)  (* res.status(status).json(body) *)
| SseOk (res : nat)                         (* SSE headers, then ':ok\n\n' *)
| SsePush (res : nat) (m : json).           (* `data: ${JSON.stringify(m)}\n\n` *)

Record Gw := mkGw {
  heap : gmap nat Session;
  next_ref : nat;
  sessions : list (key * nat);               (* this.sessions *)
  timers : list Timer;                       (* armed, not yet fired *)
  closeHandlers : list (nat * nat);          (* req.on('close'): (res, session) *)
  awaiting : list nat;                       (* HTTP requests with an unsettled promise *)
  out : list Effect }.

Definition gw0 : Gw := mkGw ∅ 0 [] [] [] [] [].

Definition set_heap (hp : gmap nat Session) (g : Gw) : Gw :=
  mkGw hp (next_ref g) (sessions g) (timers g) (closeHandlers g) (awaiting g) (out g).
Definition set_sessions (st : list (key * nat)) (g : Gw) : Gw :=
  mkGw (heap g) (next_ref g) st (timers g) (closeHandlers g) (awaiting g) (out g).
Definition set_timers (ts : list Timer) (g : Gw) : Gw :=
  mkGw (heap g) (next_ref g) (sessions g) ts (closeHandlers g) (awaiting g) (out g).
Definition set_close (cs : list (nat * nat)) (g : Gw) : Gw :=
  mkGw (heap g) (next_ref g) (sessions g) (timers g) cs (awaiting g) (out g).
Definition set_awaiting (aw : list nat) (g : Gw) : Gw :=
  mkGw (heap g) (next_ref g) (sessions g) (timers g) (closeHandlers g) aw (out g).
Definition emit (e : Effect) (g : Gw) : Gw :=
  mkGw (heap g) (next_ref g) (sessions g) (timers g) (closeHandlers g) (awaiting g) (out g ++ [e]).

Definition upd_session (r : nat) (f : Session -> Session) (g : Gw) : Gw :=
  match heap g !! r with
  | Some s => set_heap (<[r := f s]> (heap g)) g
  | None => g
  end.

Definition with_buffer (b : jstr) (s : Session) : Session :=
  mkSession (s_id s) b (sseResponse s) (pendingRequests s) (connected s).
Definition with_sse (o : option nat) (s : Session) : Session :=
  mkSession (s_id s) (messageBuffer s) o (pendingRequests s) (connected s).
Definition with_pending (p : list (key * nat)) (s : Session) : Session :=
  mkSession (s_id s) (messageBuffer s) (sseResponse s) p (connected s).
Definition with_connected (c : bool) (s : Session) : Session :=
  mkSession (s_id s) (messageBuffer s) (sseResponse s) (pendingRequests s) c.

(** ** Operations of [StreamableMCPGateway] *)

(** What [spawn(this.config.command, this.config.args, ...)] does: return a
    child process, or throw synchronously (e.g. an undefined command).  A
    failure reported later through the child's 'error' event is the event
    [ProcError]. *)
Inductive SpawnResult := SpawnOk | SpawnThrows.

Definition defaultSessionId : json := JStr (js "default-session").

(** [createSession(sessionId)]: [None] when it throws. *)
Definition createSession (sessionId : key) (sp : SpawnResult) (g : Gw) : option (nat * Gw) :=
  match sp with
  | SpawnThrows => None
  | SpawnOk =>
      let r := next_ref g in
      let session := mkSession sessionId [] None [] false in
      let g1 := emit (Spawned r)
                  (mkGw (<[r := session]> (heap g)) (S r) (sessions g) (timers g)
                        (closeHandlers g) (awaiting g) (out g)) in
      (* session.connected = true; this.sessions.set(sessionId, session) *)
      let g2 := upd_session r (with_connected true) g1 in
      Some (r, set_sessions (map_set sessionId r (sessions g2)) g2)
  end.

(** The resolver of the promise awaited by HTTP request [h]: settles it once
    and the handler answers with [res.json(response)]; later calls do
    nothing, as for any promise. *)
Definition resolve (h : nat) (m : json) (g : Gw) : Gw :=
  if existsb (Nat.eqb h) (awaiting g)
  then emit (HttpResp h 200 m) (set_awaiting (List.filter (fun x => negb (Nat.eqb h x)) (awaiting g)) g)
  else g.

(** The first [if] of [handleStdioMessage]: a reply whose id is pending
    resolves the waiting request and removes the entry. *)
Definition settle_pending (r : nat) (m : json) (g : Gw) : Gw :=
  match get_field m "id", heap g !! r with
  | Some i, Some s =>
      match map_get (KVal i) (pendingRequests s) with
      | Some h =>
          let g' := upd_session r (with_pending (map_delete (KVal i) (pendingRequests s))) g in
          resolve h m g'
      | None => g
      end
  | _, _ => g
  end.

(** The second [if]: the message is written to the SSE response if any. *)
Definition push_sse (r : nat) (m : json) (g : Gw) : Gw :=
  match heap g !! r with
  | Some s => match sseResponse s with
              | Some res => emit (SsePush res m) g
              | None => g
              end
  | None => g
  end.

(** [handleStdioMessage(session, message)]: [None] when it throws
    ([message.id] on [null]). *)
Definition handleStdioMessage (r : nat) (m : json) (g : Gw) : option Gw :=
  match m with
  | JNull => None
  | _ => Some (push_sse r m (settle_pending r m g))
  end.

(** [lines.pop() || '']: the complete lines and the new buffer. *)
Fixpoint pop_last (l : list jstr) : list jstr * jstr :=
  match l with
  | [] => ([], [])
  | [x] => ([], x)
  | x :: r => let '(a, b) := pop_last r in (x :: a, b)
  end.

(** The body of the [for] loop of [handleStdioData]: blank lines are
    skipped; a line that does not parse, or whose message makes
    [handleStdioMessage] throw, is caught and logged. *)
Fixpoint dispatch_lines (r : nat) (lines : list jstr) (g : Gw) : Gw :=
  match lines with
  | [] => g
  | line :: rest =>
      let g' :=
        if trim_nonempty line then
          match JSON_parse line with
          | Some m => match handleStdioMessage r m g with Some g'' => g'' | None => g end
          | None => g
          end
        else g in
      dispatch_lines r rest g'
  end.

(** [handleStdioData(session, data)] *)
Definition handleStdioData (r : nat) (data : list Z) (g : Gw) : Gw :=
  match heap g !! r with
  | None => g
  | Some s =>
      let lines := split_nl (messageBuffer s ++ buffer_toString data) in
      let '(complete, rest) := pop_last lines in
      dispatch_lines r complete (upd_session r (with_buffer rest) g)
  end.

(** [req.query.sessionId || req.headers['x-session-id']], then the default. *)
Definition sse_session_id (query header : option jstr) : json :=
  match query, header with
  | Some ((_ :: _) as q), _ => JStr q
  | _, Some ((_ :: _) as hd) => JStr hd
  | _, _ => defaultSessionId
  end.

(** The same followed by [|| req.body.sessionId]. *)
Definition post_session_id (query header : option jstr) (body : json) : json :=
  match query, header with
  | Some ((_ :: _) as q), _ => JStr q
  | _, Some ((_ :: _) as hd) => JStr hd
  | _, _ => match get_field body "sessionId" with
            | Some v => if truthy v then v else defaultSessionId
            | None => defaultSessionId
            end
  end.

(** The key of that session id in [this.sessions], for request [h]: a
    [body.sessionId] that is an object is that request's own object. *)
Definition post_session_key (h : nat) (query header : option jstr) (body : json) : key :=
  body_key h "sessionId" (post_session_id query header body).

Definition jsonrpc_error (code : Z) (msg : string) : json :=
  JObj [(js "jsonrpc", JStr (js "2.0"));
        (js "error", JObj [(js "code", JNum code 0); (js "message", JStr (js msg))])].

Definition timeout_response (i : json) : json :=
  JObj [(js "jsonrpc", JStr (js "2.0")); (js "id", i);
        (js "error", JObj [(js "code", JNum (-32603) 0); (js "message", JStr (js "Request timeout"))])].

Definition setLevel_response (i : json) : json :=
  JObj [(js "jsonrpc", JStr (js "2.0")); (js "id", i); (js "result", JObj [])].

Definition resources_response (i : json) : json :=
  JObj [(js "jsonrpc", JStr (js "2.0")); (js "id", i);
        (js "result", JObj [(js "resources", JArr [])])].

Definition is_method (body : json) (name : string) : bool :=
  match get_field body "method" with
  | Some (JStr m) => if decide (m = js name) then true else false
  | _ => false
  end.

(** The session [handleMessage] works with: a stored connected session, or a
    new one ([None] when [createSession] throws). *)
Definition message_session (sessionId : key) (sp : SpawnResult) (g : Gw) : option (nat * Gw) :=
  let existing :=
    match map_get sessionId (sessions g) with
    | Some r => match heap g !! r with
                | Some s => if connected s then Some r else None
                | None => None
                end
    | None => None
    end in
  match existing with
  | Some r => Some (r, g)
  | None =>
      match createSession sessionId sp g with
      | Some (r, g') => Some (r, set_sessions (map_set sessionId r (sessions g')) g')
      | None => None
      end
  end.

(** [sendToStdio(session, message)]: the write itself; a failed write is
    only logged by its callback. *)
Definition sendToStdio (r : nat) (m : json) (g : Gw) : Gw := emit (StdinWrite r m) g.

(** [handleMessage(req, res)] for request [h]. *)
Definition handleMessage (h : nat) (query header : option jstr) (body : json)
    (sp : SpawnResult) (g : Gw) : Gw :=
  let sessionId := post_session_key h query header body in
  match message_session sessionId sp g with
  | None => emit (HttpResp h 500 (jsonrpc_error (-32603) "Failed to create session")) g
  | Some (r, g1) =>
      match get_field body "id" with
      | Some i =>
          if is_method body "logging/setLevel" then emit (HttpResp h 200 (setLevel_response i)) g1
          else if is_method body "resources/list" then emit (HttpResp h 200 (resources_response i)) g1
          else
            (* new Promise: pendingRequests.set, sendToStdio, setTimeout *)
            let g2 := set_awaiting (awaiting g1 ++ [h]) g1 in
            let g3 := upd_session r (fun s => with_pending (map_set (body_key h "id" i) h (pendingRequests s)) s) g2 in
            let g4 := sendToStdio r body g3 in
            set_timers (timers g4 ++ [mkTimer r (body_key h "id" i) h 30000]) g4
      | None =>
          emit (HttpResp h 202 (JObj [])) (sendToStdio r body g1)
      end
  end.

(** The callback of the timer: presence check, delete, resolve. *)
Definition timer_fires (t : Timer) (g : Gw) : Gw :=
  match heap g !! t_session t with
  | Some s =>
      if map_has (t_id t) (pendingRequests s) then
        let g' := upd_session (t_session t) (with_pending (map_delete (t_id t) (pendingRequests s))) g in
        resolve (t_req t) (timeout_response (key_val (t_id t))) g'
      else g
  | None => g
  end.

(** [handleSSE(req, res)] for the response [res]. *)
Definition handleSSE (res : nat) (query header : option jstr) (sp : SpawnResult) (g : Gw) : Gw :=
  let sessionId := KVal (sse_session_id query header) in
  let got :=
    match map_get sessionId (sessions g) with
    | Some r => Some (r, g)
    | None => match createSession sessionId sp g with
              | Some (r, g') => Some (r, set_sessions (map_set sessionId r (sessions g')) g')
              | None => None
              end
    end in
  match got with
  | None => emit (HttpResp res 500 (JObj [(js "error", JStr (js "Failed to create session"))])) g
  | Some (r, g1) =>
      let g2 := upd_session r (with_sse (Some res)) g1 in
      let g3 := emit (SseOk res) g2 in
      set_close (closeHandlers g3 ++ [(res, r)]) g3
  end.

(** The 'close' handler registered by [handleSSE]. *)
Definition sse_close (res : nat) (r : nat) (g : Gw) : Gw :=
  match heap g !! r with
  | Some s => match sseResponse s with
              | Some res' => if Nat.eqb res' res then upd_session r (with_sse None) g else g
              | None => g
              end
  | None => g
  end.

Definition close_request (res : nat) (g : Gw) : Gw :=
  let hs := List.filter (fun c => Nat.eqb c.1 res) (closeHandlers g) in
  let g' := set_close (List.filter (fun c => negb (Nat.eqb c.1 res)) (closeHandlers g)) g in
  fold_left (fun g c => sse_close res c.2 g) hs g'.

(** The 'error' handler of the child process of session [r]. *)
Definition proc_error (r : nat) (g : Gw) : Gw := upd_session r (with_connected false) g.

(** The 'exit' handler: [session.connected = false; this.sessions.delete(sessionId)]. *)
Definition proc_exit (r : nat) (g : Gw) : Gw :=
  match heap g !! r with
  | Some s => let g' := upd_session r (with_connected false) g in
              set_sessions (map_delete (s_id s) (sessions g')) g'
  | None => g
  end.

(** [close()] *)
Definition gw_close (g : Gw) : Gw :=
  set_sessions [] (fold_left (fun g kv => emit (Killed kv.2) g) (sessions g) g).

(** ** Events and runs *)

Inductive Event :=
| Post (h : nat) (query header : option jstr) (body : json) (sp : SpawnResult)
| SseOpen (res : nat) (query header : option jstr) (sp : SpawnResult)
| ReqClose (res : nat)
| StdoutData (r : nat) (data : list Z)
| ProcError (r : nat)
| ProcExit (r : nat)
| TimerFires (k : nat)
| Shutdown.

Fixpoint remove_nth {A} (k : nat) (l : list A) : list A :=
  match k, l with
  | _, [] => []
  | O, _ :: r => r
  | S k', x :: r => x :: remove_nth k' r
  end.

Definition step (g : Gw) (ev : Event) : Gw :=
  match ev with
  | Post h q hd body sp => handleMessage h q hd body sp g
  | SseOpen res q hd sp => handleSSE res q hd sp g
  | ReqClose res => close_request res g
  | StdoutData r data => handleStdioData r data g
  | ProcError r => proc_error r g
  | ProcExit r => proc_exit r g
  | TimerFires k => match nth_error (timers g) k with
                    | Some t => timer_fires t (set_timers (remove_nth k (timers g)) g)
                    | None => g
                    end
  | Shutdown => gw_close g
  end.

Definition run (g : Gw) (evs : list Event) : Gw := fold_left step evs g.

(** ** Invariants used in the proofs *)

(** No pending entry and no armed timer refers to HTTP request [h]. *)
Definition pend_ok (h : nat) (s : Session) : Prop :=
  Forall (fun kv => kv.2 <> h) (pendingRequests s).

Definition no_ref (h : nat) (g : Gw) : Prop :=
  map_Forall (fun _ s => pend_ok h s) (heap g) /\ Forall (fun t => t_req t <> h) (timers g).

(** An effect that is not an HTTP response to [h]. *)
Definition fresh_eff (h : nat) (e : Effect) : Prop :=
  match e with HttpResp h' _ _ => h' <> h | _ => True end.

(** A transition that keeps [no_ref h] and answers nothing to [h]. *)
Definition Good (h : nat) (g g' : Gw) : Prop :=
  no_ref h g -> no_ref h g' /\ exists new, out g' = out g ++ new /\ Forall (fresh_eff h) new.

(** Events that do not come from HTTP request [h] itself. *)
Definition ev_fresh (h : nat) (ev : Event) : Prop :=
  match ev with
  | Post h' _ _ _ _ => h' <> h
  | SseOpen res _ _ _ => res <> h
  | _ => True
  end.

(** ** Concrete inputs *)

(** The POST body [{"jsonrpc":"2.0","id":1,"method":"tools/list"}]. *)
Definition tools_list_request : json :=
  JObj [(js "jsonrpc", JStr (js "2.0")); (js "id", JNum 1 0); (js "method", JStr (js "tools/list"))].

(** The backend's reply to it, one line of stdout (ASCII, so its UTF-8
    bytes are its code units). *)
Definition tools_list_reply_bytes : list Z :=
  jq "{'jsonrpc':'2.0','id':1,'result':{'tools':[]}}" ++ [10].

Definition tools_list_reply : json :=
  JObj [(js "jsonrpc", JStr (js "2.0")); (js "id", JNum 1 0);
        (js "result", JObj [(js "tools", JArr [])])].

(** Two requests with the same id 1 on the default session; the backend
    answers both; the 30 s window of both timers elapses. *)
Definition dup_id_events : list Event :=
  [Post 1 None None tools_list_request SpawnOk;
   Post 2 None None tools_list_request SpawnOk;
   StdoutData 0 (tools_list_reply_bytes ++ tools_list_reply_bytes);
   TimerFires 0; TimerFires 0].

(** The UTF-8 line [{"a":"\u00e9"}] followed by a newline, and the same
    bytes cut inside the two-byte encoding C3 A9 of the accented letter. *)
Definition e_acute_line : list Z := [123; 34; 97; 34; 58; 34; 195; 169; 34; 125; 10].
Definition e_acute_chunk1 : list Z := [123; 34; 97; 34; 58; 34; 195].
Definition e_acute_chunk2 : list Z := [169; 34; 125; 10].

(** A session 0 on the default id with SSE response 5 attached. *)
Definition g_sse : Gw := run gw0 [SseOpen 5 None None SpawnOk].

(** A [logging/setLevel] request, a notification, and a [logging/setLevel]
    notification. *)
Definition setLevel_request : json :=
  JObj [(js "jsonrpc", JStr (js "2.0")); (js "id", JNum 1 0); (js "method", JStr (js "logging/setLevel"));
        (js "params", JObj [(js "level", JStr (js "debug"))])].
Definition initialized_notification : json :=
  JObj [(js "jsonrpc", JStr (js "2.0")); (js "method", JStr (js "notifications/initialized"))].
Definition setLevel_notification : json :=
  JObj [(js "jsonrpc", JStr (js "2.0")); (js "method", JStr (js "logging/setLevel"));
        (js "params", JObj [(js "level", JStr (js "debug"))])].

(** The session of [g_sse]. *)
Definition s_sse : Session :=
  Eval vm_compute in match heap g_sse !! 0%nat with Some s => s | None => mkSession (KVal JNull) [] None [] false end.

(** [g_sse] after a [tools/list] request (request 2) is sent. *)
Definition g_pending : Gw := run g_sse [Post 2 None None tools_list_request SpawnOk].

Definition s_pending : Session :=
  Eval vm_compute in match heap g_pending !! 0%nat with Some s => s | None => mkSession (KVal JNull) [] None [] false end.

(** The session created for the default id from the empty gateway. *)
Definition created_default : nat * Gw :=
  Eval vm_compute in match message_session (KVal defaultSessionId) SpawnOk gw0 with
                     | Some p => p
                     | None => (0%nat, gw0)
                     end.

(** ** [JSON.stringify], as used by [sendToStdio] and the SSE push

    [JSON.stringify(message)] of a value produced by [JSON.parse] (or built
    by the gateway), with no replacer and no indentation (ECMA-262
    sec. 25.5.2). *)

(** The elements joined by a separator, as [Array.prototype.join]. *)
Fixpoint join_with (sep : Z) (l : list jstr) : jstr :=
  match l with
  | [] => []
  | [x] => x
  | x :: r => x ++ sep :: join_with sep r
  end.

(** UnicodeEscape(C): [\u] and four lowercase hexadecimal digits. *)
Definition hex_digit (n : Z) : Z := if n <? 10 then 48 + n else 87 + n.

Definition unicode_escape (c : Z) : jstr :=
  [92; 117; hex_digit (Z.shiftr c 12 mod 16); hex_digit (Z.shiftr c 8 mod 16);
   hex_digit (Z.shiftr c 4 mod 16); hex_digit (c mod 16)].

Definition is_lead (c : Z) : bool := (55296 <=? c) && (c <=? 56319).
Definition is_trail (c : Z) : bool := (56320 <=? c) && (c <=? 57343).

(** One code point that is not part of a surrogate pair. *)
Definition quote_unit (c : Z) : jstr :=
  if c =? 8 then [92; 98]
  else if c =? 9 then [92; 116]
  else if c =? 10 then [92; 110]
  else if c =? 12 then [92; 102]
  else if c =? 13 then [92; 114]
  else if c =? 34 then [92; 34]
  else if c =? 92 then [92; 92]
  else if (c <? 32) || is_lead c || is_trail c then unicode_escape c
  else [c].

(** QuoteJSONString, without the surrounding quotes: the string is read
    by code points, a surrogate pair is copied, a lone surrogate escaped. *)
Fixpoint quote_body (s : jstr) : jstr :=
  match s with
  | [] => []
  | c :: r =>
      if is_lead c then
        match r with
        | d :: r' => if is_trail d then c :: d :: quote_body r' else quote_unit c ++ quote_body r
        | [] => quote_unit c
        end
      else quote_unit c ++ quote_body r
  end.

Definition quote (s : jstr) : jstr := [34] ++ quote_body s ++ [34].

(** The decimal digits of a positive integer. *)
Fixpoint dec_digits (fuel : nat) (n : Z) (acc : jstr) : jstr :=
  match fuel with
  | O => acc
  | S f => if n <? 10 then (48 + n) :: acc else dec_digits f (n / 10) (48 + n mod 10 :: acc)
  end.

Definition Z_digits (n : Z) : jstr := dec_digits (Z.to_nat (Z.log2 n + 1)) n [].

(** Number::toString of the value [m * 10^e] (sec. 6.1.6.1.20): [ds] are
    the [k] digits of the shortest decimal form and [n] the position of the
    decimal point. *)
Definition number_to_string (m e : Z) : jstr :=
  let '(m', e') := norm_num (Z.to_nat (Z.log2_up (Z.abs m) + 1)) m e in
  if m' =? 0 then [48] else
  let ds := Z_digits (Z.abs m') in
  let k := Z.of_nat (length ds) in
  let n := k + e' in
  let sign := if m' <? 0 then [45] else [] in
  sign ++
  (if (k <=? n) && (n <=? 21) then ds ++ repeat 48 (Z.to_nat (n - k))
   else if (0 <? n) && (n <=? 21) then firstn (Z.to_nat n) ds ++ 46 :: skipn (Z.to_nat n) ds
   else if (-6 <? n) && (n <=? 0) then [48; 46] ++ repeat 48 (Z.to_nat (- n)) ++ ds
   else
     let ex := n - 1 in
     match ds with
     | d :: rest => [d] ++ (match rest with [] => [] | _ => 46 :: rest end) ++
                    [101; if ex <? 0 then 45 else 43] ++ Z_digits (Z.abs ex)
     | [] => []
     end).

(** An array index: the canonical decimal form of an integer below
    2^32 - 1. *)
Definition is_array_index (k : jstr) : bool :=
  match k with
  | [] => false
  | c :: r => forallb is_digit k && (negb (c =? 48) || (length r =? 0)%nat)
              && (fold_left (fun acc d => acc * 10 + (d - 48)) k 0 <=? 4294967294)
  end.

Definition index_value (k : jstr) : Z := fold_left (fun acc d => acc * 10 + (d - 48)) k 0.

(** The own properties of an object made by [JSON.parse]: a repeated key
    keeps the position of its first creation and the last value. *)
Definition create_props {A} (l : list (jstr * A)) : list (jstr * A) :=
  fold_left (fun acc kv =>
    if existsb (fun kv' => if decide (kv'.1 = kv.1) then true else false) acc
    then map (fun kv' => if decide (kv'.1 = kv.1) then kv else kv') acc
    else acc ++ [kv]) l [].

Fixpoint insert_index {A} (kv : jstr * A) (l : list (jstr * A)) : list (jstr * A) :=
  match l with
  | [] => [kv]
  | kv' :: r => if index_value kv.1 <? index_value kv'.1 then kv :: l else kv' :: insert_index kv r
  end.

(** OrdinaryOwnPropertyKeys: array indices in ascending order, then the
    other keys in order of creation. *)
Definition own_keys_order {A} (l : list (jstr * A)) : list (jstr * A) :=
  fold_right insert_index [] (List.filter (fun kv => is_array_index kv.1) l)
  ++ List.filter (fun kv => negb (is_array_index kv.1)) l.

Fixpoint JSON_stringify (v : json) : jstr :=
  match v with
  | JNull => js "null"
  | JBool true => js "true"
  | JBool false => js "false"
  | JNum m e => number_to_string m e
  | JStr s => quote s
  | JArr l => [91] ++ join_with 44 (map JSON_stringify l) ++ [93]
  | JObj l =>
      [123] ++ join_with 44 (map (fun kv => quote kv.1 ++ 58 :: kv.2)
                              (own_keys_order (create_props (map (fun kv => (kv.1, JSON_stringify kv.2)) l))))
      ++ [125]
  end.

(** What [sendToStdio] writes: [JSON.stringify(message) + '\n']. *)
Definition stdin_line (m : json) : jstr := JSON_stringify m ++ [10].

(** What [handleStdioMessage] writes to the SSE response:
    [`data: ${JSON.stringify(message)}\n\n`]. *)
Definition sse_frame (m : json) : jstr := js "data: " ++ JSON_stringify m ++ [10; 10].

(** The lines of an event stream as its client reads them (HTML, event
    stream interpretation): a line ends at CR LF, at LF alone or at CR
    alone; the last element is the text after the last line end. *)
Fixpoint sse_lines (s : jstr) : list jstr :=
  match s with
  | [] => [[]]
  | c :: r =>
      if c =? 13 then
        match r with
        | d :: r' => if d =? 10 then [] :: sse_lines r' else [] :: sse_lines r
        | [] => [] :: sse_lines r
        end
      else if c =? 10 then [] :: sse_lines r
      else match sse_lines r with
           | x :: xs => (c :: x) :: xs
           | [] => [[c]]
           end
  end.

(** ** The server entry point (src/src/index.ts) *)

(** [s.split(sep)] for a one-unit separator. *)
Fixpoint js_split (sep : Z) (s : jstr) : list jstr :=
  match s with
  | [] => [[]]
  | c :: r =>
      let rest := js_split sep r in
      if c =? sep then [] :: rest
      else match rest with
           | x :: xs => (c :: x) :: xs
           | [] => [[c]]
           end
  end.

(** [process.env.MCP_ARGS ? process.env.MCP_ARGS.split(',') : []], the
    arguments passed to [spawn]. *)
Definition mcp_args (env : option jstr) : list jstr :=
  match env with
  | Some ((_ :: _) as s) => js_split 44 s
  | _ => []
  end.

(** A reply carrying the id ["1"], a string, where the request had the
    number 1. *)
Definition reply_string_id : json :=
  JObj [(js "jsonrpc", JStr (js "2.0")); (js "id", JStr (js "1")); (js "result", JObj [])].

(** Request 1 (id 1) is answered by the backend; request 2 then reuses the
    id 1 while the timer of request 1 is still armed. *)
Definition g_reuse : Gw :=
  run gw0 [Post 1 None None tools_list_request SpawnOk; StdoutData 0 tools_list_reply_bytes;
           Post 2 None None tools_list_request SpawnOk].

Definition s_reuse : Session :=
  Eval vm_compute in match heap g_reuse !! 0%nat with Some s => s | None => mkSession (KVal JNull) [] None [] false end.

(** Session 0's process reports an 'error'; the next POST stores a new
    session 1 under the same id. *)
Definition g_replaced : Gw :=
  run gw0 [Post 1 None None tools_list_request SpawnOk; ProcError 0;
           Post 2 None None tools_list_request SpawnOk].

Definition s0_replaced : Session :=
  Eval vm_compute in match heap g_replaced !! 0%nat with Some s => s | None => mkSession (KVal JNull) [] None [] false end.

Definition s1_replaced : Session :=
  Eval vm_compute in match heap g_replaced !! 1%nat with Some s => s | None => mkSession (KVal JNull) [] None [] false end.

(** ** Examples of the JSON parser *)

Example JSON_parse_ex1 :
  JSON_parse (jq "{'jsonrpc':'2.0','id':1,'result':{'tools':[]}}") =
  Some (JObj [(js "jsonrpc", JStr (js "2.0")); (js "id", JNum 1 0);
              (js "result", JObj [(js "tools", JArr [])])]).
Proof. reflexivity. Qed.

Example JSON_parse_ex2 : JSON_parse (jq "{'a':1.50e1, 'b':[true,null,-0]}") =
  Some (JObj [(js "a", JNum 15 0); (js "b", JArr [JBool true; JNull; JNum 0 0])]).
Proof. reflexivity. Qed.

Example JSON_parse_ex3 : JSON_parse (jq "{'a':1,}") = None.
Proof. reflexivity. Qed.

(** ** Lemmas on the JS Map *)

Lemma map_get_In {V} (k : key) (v : V) (l : list (key * V)) :
  map_get k l = Some v -> exists k', In (k', v) l.
Proof.
  induction l as [|[k' v'] l IH]; simpl; [discriminate|].
  destruct (key_eq k k').
  - intros [= ->]. eauto.
  - intros H. destruct (IH H) as [k'' Hin]. eauto.
Qed.

Lemma map_delete_Forall {V} (P : key * V -> Prop) (k : key) (l : list (key * V)) :
  Forall P l -> Forall P (map_delete k l).
Proof.
  unfold map_delete. induction 1 as [|x l Hx Hl IH]; simpl; [constructor|].
  destruct (negb _); [constructor|]; assumption.
Qed.

Lemma map_get_delete {V} (k : key) (l : list (key * V)) : map_get k (map_delete k l) = None.
Proof.
  unfold map_delete. induction l as [|[k' v'] l IH]; simpl; [reflexivity|].
  destruct (key_eq k k') eqn:E; simpl; [exact IH|]. rewrite E. exact IH.
Qed.

Lemma map_set_Forall {V} (P : V -> Prop) (k : key) (v : V) (l : list (key * V)) :
  P v -> Forall (fun kv => P kv.2) l -> Forall (fun kv => P kv.2) (map_set k v l).
Proof.
  intros Hv. induction 1 as [|[k' v'] l Hx Hl IH]; simpl; [constructor; auto|].
  destruct (key_eq k k'); constructor; auto.
Qed.

Lemma same_value_zero_refl (v : json) :
  match v with JObj _ | JArr _ => False | _ => True end -> same_value_zero v v = true.
Proof.
  destruct v as [|b|m e|t|l|l]; simpl; intros H; try contradiction.
  - reflexivity.
  - destruct b; reflexivity.
  - rewrite !Z.eqb_refl. reflexivity.
  - destruct (decide (t = t)); congruence.
Qed.

Lemma body_key_refl (h : nat) (p : string) (v : json) : key_eq (body_key h p v) (body_key h p v) = true.
Proof.
  destruct v; cbn [body_key key_eq]; try (apply same_value_zero_refl; exact I);
    rewrite Nat.eqb_refl, String.eqb_refl; reflexivity.
Qed.

Lemma key_val_body_key (h : nat) (p : string) (v : json) : key_val (body_key h p v) = v.
Proof. destruct v; reflexivity. Qed.

Lemma map_get_set_eq {V} (k : key) (v : V) (l : list (key * V)) :
  key_eq k k = true -> map_get k (map_set k v l) = Some v.
Proof.
  intros Hk. induction l as [|[k' v'] l IH]; simpl; [rewrite Hk; reflexivity|].
  destruct (key_eq k k') eqn:E; simpl; rewrite ?E; [reflexivity | exact IH].
Qed.

(** [handleMessage]'s session when no connected session is stored under
    its id and the spawn succeeds: a new one, stored twice under the id. *)
Lemma message_session_new (k : key) (g : Gw) :
  (forall r s, map_get k (sessions g) = Some r -> heap g !! r = Some s -> connected s = false) ->
  message_session k SpawnOk g =
    Some (next_ref g,
          mkGw (<[next_ref g := mkSession k [] None [] true]> (heap g)) (S (next_ref g))
               (map_set k (next_ref g) (map_set k (next_ref g) (sessions g)))
               (timers g) (closeHandlers g) (awaiting g) (out g ++ [Spawned (next_ref g)])).
Proof.
  intros Hdisc. unfold message_session.
  assert (Ex : match map_get k (sessions g) with
               | Some r => match heap g !! r with Some s => if connected s then Some r else None | None => None end
               | None => None end = None).
  { destruct (map_get k (sessions g)) as [r|] eqn:Er; [|reflexivity].
    destruct (heap g !! r) as [s|] eqn:Es; [|reflexivity]. rewrite (Hdisc r s eq_refl Es). reflexivity. }
  rewrite Ex. simpl. unfold upd_session. simpl. rewrite lookup_insert_eq. simpl.
  rewrite insert_insert_eq. reflexivity.
Qed.

(** ** Transitions that never answer a given HTTP request *)

Section Unanswered.
Variable h : nat.

Lemma Good_refl g : Good h g g.
Proof. intros NR. split; [exact NR|]. exists []. rewrite app_nil_r. auto. Qed.

Lemma Good_trans g1 g2 g3 : Good h g1 g2 -> Good h g2 g3 -> Good h g1 g3.
Proof.
  intros H12 H23 NR. destruct (H12 NR) as [NR2 [n1 [E1 F1]]].
  destruct (H23 NR2) as [NR3 [n2 [E2 F2]]]. split; [exact NR3|].
  exists (n1 ++ n2). rewrite E2, E1, app_assoc. split; [reflexivity|]. apply Forall_app; auto.
Qed.

Lemma Good_emit g e : fresh_eff h e -> Good h g (emit e g).
Proof. intros He NR. split; [exact NR|]. exists [e]. auto. Qed.

Lemma Good_same g g' :
  heap g' = heap g -> timers g' = timers g -> out g' = out g -> Good h g g'.
Proof.
  intros Eh Et Eo [NH NT]. unfold no_ref. rewrite Eh, Et, Eo. split; [auto|].
  exists []. rewrite app_nil_r. auto.
Qed.

Lemma Good_set_sessions g st : Good h g (set_sessions st g).
Proof. apply Good_same; reflexivity. Qed.

Lemma Good_set_close g cs : Good h g (set_close cs g).
Proof. apply Good_same; reflexivity. Qed.

Lemma Good_set_awaiting g aw : Good h g (set_awaiting aw g).
Proof. apply Good_same; reflexivity. Qed.

Lemma Good_set_timers g ts :
  (Forall (fun t => t_req t <> h) (timers g) -> Forall (fun t => t_req t <> h) ts) ->
  Good h g (set_timers ts g).
Proof.
  intros Hts [NH NT]. split; [split; [exact NH | auto]|]. exists []. rewrite app_nil_r. auto.
Qed.

Lemma Good_upd g r f :
  (forall s, pend_ok h s -> pend_ok h (f s)) -> Good h g (upd_session r f g).
Proof.
  intros Hf NR. unfold upd_session. destruct (heap g !! r) as [s|] eqn:E.
  - destruct NR as [NH NT]. split.
    + split; [|exact NT]. simpl. apply map_Forall_insert_2; [|exact NH].
      apply Hf. exact (map_Forall_lookup_1 _ _ _ _ NH E).
    + exists []. rewrite app_nil_r. auto.
  - apply Good_refl. exact NR.
Qed.

Lemma Good_resolve g h' m : h' <> h -> Good h g (resolve h' m g).
Proof.
  intros Hne. unfold resolve. destruct (existsb _ _).
  - eapply Good_trans; [apply Good_set_awaiting|]. apply Good_emit. simpl. exact Hne.
  - apply Good_refl.
Qed.

Lemma pend_ok_with_pending_delete s i :
  pend_ok h s -> pend_ok h (with_pending (map_delete (KVal i) (pendingRequests s)) s).
Proof. unfold pend_ok. simpl. apply map_delete_Forall. Qed.

Lemma Good_createSession k sp g r g' : createSession k sp g = Some (r, g') -> Good h g g'.
Proof.
  destruct sp; simpl; [|discriminate]. intros [= <- <-].
  eapply Good_trans; [|apply Good_set_sessions].
  eapply Good_trans; [|apply Good_upd; intros s Hs; exact Hs].
  intros [NH NT]. split.
  - split; [|exact NT]. simpl. apply map_Forall_insert_2; [constructor | exact NH].
  - exists [Spawned (next_ref g)]. split; [reflexivity|]. repeat constructor.
Qed.

Lemma Good_message_session k sp g r g' : message_session k sp g = Some (r, g') -> Good h g g'.
Proof.
  unfold message_session.
  destruct (match map_get k (sessions g) with Some r => _ | None => None end).
  - intros [= _ <-]. apply Good_refl.
  - destruct (createSession k sp g) as [[r1 g1]|] eqn:E; [|discriminate].
    intros [= _ <-]. eapply Good_trans; [eapply Good_createSession; exact E|].
    apply Good_set_sessions.
Qed.

Lemma Good_handleMessage h' q hd body sp g : h' <> h -> Good h g (handleMessage h' q hd body sp g).
Proof.
  intros Hne. unfold handleMessage, sendToStdio. cbv zeta.
  destruct (message_session _ sp g) as [[r g1]|] eqn:Em.
  2: { apply Good_emit. simpl. exact Hne. }
  apply (Good_trans _ g1); [eapply Good_message_session; exact Em|].
  destruct (get_field body "id") as [i|].
  - destruct (is_method body "logging/setLevel"); [apply Good_emit; simpl; exact Hne|].
    destruct (is_method body "resources/list"); [apply Good_emit; simpl; exact Hne|].
    eapply Good_trans; [|apply Good_set_timers].
    2: { intros Ht. apply Forall_app; split; [exact Ht|].
         constructor; [simpl; exact Hne | constructor]. }
    eapply Good_trans; [|apply Good_emit; exact I].
    eapply Good_trans; [|apply Good_upd].
    2: { intros s Hs. unfold pend_ok. simpl. apply (map_set_Forall (fun v => v <> h)); auto. }
    apply Good_set_awaiting.
  - eapply Good_trans; [|apply Good_emit; simpl; exact Hne]. apply Good_emit. exact I.
Qed.

Lemma Good_push_sse r m g : Good h g (push_sse r m g).
Proof.
  unfold push_sse. destruct (heap g !! r) as [s|]; [destruct (sseResponse s)|];
    [apply Good_emit; exact I | apply Good_refl | apply Good_refl].
Qed.

Lemma Good_settle_pending r m g : Good h g (settle_pending r m g).
Proof.
  intros NR. unfold settle_pending.
  destruct (get_field m "id") as [i|]; [|apply Good_refl; exact NR].
  destruct (heap g !! r) as [s|] eqn:Es; [|apply Good_refl; exact NR].
  destruct (map_get (KVal i) (pendingRequests s)) as [h'|] eqn:Eh; [|apply Good_refl; exact NR].
  assert (Hs : pend_ok h s) by exact (map_Forall_lookup_1 _ _ _ _ (proj1 NR) Es).
  assert (Hne : h' <> h).
  { destruct (map_get_In _ _ _ Eh) as [k' Hin].
    exact (proj1 (List.Forall_forall _ _) Hs _ Hin). }
  revert NR. eapply Good_trans; [|apply Good_resolve; exact Hne].
  apply Good_upd. intros s0 _. apply map_delete_Forall. exact Hs.
Qed.

Lemma Good_handleStdioMessage r m g g' : handleStdioMessage r m g = Some g' -> Good h g g'.
Proof.
  unfold handleStdioMessage. intros E.
  assert (Hg' : g' = push_sse r m (settle_pending r m g)) by (destruct m; congruence).
  subst g'. eapply Good_trans; [apply Good_settle_pending | apply Good_push_sse].
Qed.

Lemma Good_dispatch_lines r lines g : Good h g (dispatch_lines r lines g).
Proof.
  revert g. induction lines as [|line rest IH]; intros g; simpl; [apply Good_refl|].
  eapply Good_trans; [|apply IH].
  destruct (trim_nonempty line); [|apply Good_refl].
  destruct (JSON_parse line) as [m|]; [|apply Good_refl].
  destruct (handleStdioMessage r m g) as [g''|] eqn:E; [|apply Good_refl].
  eapply Good_handleStdioMessage. exact E.
Qed.

Lemma Good_handleStdioData r data g : Good h g (handleStdioData r data g).
Proof.
  unfold handleStdioData. destruct (heap g !! r) as [s|]; [|apply Good_refl].
  destruct (pop_last _) as [complete rest].
  eapply Good_trans; [|apply Good_dispatch_lines].
  apply Good_upd. intros s0 Hs0. exact Hs0.
Qed.

Lemma Good_handleSSE res q hd sp g : res <> h -> Good h g (handleSSE res q hd sp g).
Proof.
  intros Hne. unfold handleSSE.
  destruct (match map_get _ (sessions g) with Some r => _ | None => _ end)
    as [[r g1]|] eqn:Eg.
  2: { apply Good_emit. simpl. exact Hne. }
  assert (G1 : Good h g g1).
  { destruct (map_get _ (sessions g)).
    - injection Eg as _ <-. apply Good_refl.
    - destruct (createSession _ sp g) as [[r1 g2]|] eqn:Ec; [|discriminate].
      injection Eg as _ <-. eapply Good_trans; [eapply Good_createSession; exact Ec|].
      apply Good_set_sessions. }
  eapply Good_trans; [|apply Good_set_close].
  eapply Good_trans; [|apply Good_emit; exact I].
  eapply Good_trans; [exact G1|]. apply Good_upd. intros s0 Hs0. exact Hs0.
Qed.

Lemma Good_sse_close res r g : Good h g (sse_close res r g).
Proof.
  unfold sse_close. destruct (heap g !! r) as [s|]; [|apply Good_refl].
  destruct (sseResponse s) as [res'|]; [|apply Good_refl].
  destruct (Nat.eqb res' res); [|apply Good_refl].
  apply Good_upd. intros s0 Hs0. exact Hs0.
Qed.

Lemma Good_close_fold res (hs : list (nat * nat)) g :
  Good h g (fold_left (fun g c => sse_close res c.2 g) hs g).
Proof.
  revert g. induction hs as [|c hs IH]; intros g; simpl; [apply Good_refl|].
  eapply Good_trans; [apply Good_sse_close | apply IH].
Qed.

Lemma Good_close_request res g : Good h g (close_request res g).
Proof.
  unfold close_request. eapply Good_trans; [apply Good_set_close | apply Good_close_fold].
Qed.

Lemma Good_proc_error r g : Good h g (proc_error r g).
Proof. apply Good_upd. intros s Hs. exact Hs. Qed.

Lemma Good_proc_exit r g : Good h g (proc_exit r g).
Proof.
  unfold proc_exit. destruct (heap g !! r) as [s|]; [|apply Good_refl].
  eapply Good_trans; [|apply Good_set_sessions].
  apply Good_upd. intros s0 Hs0. exact Hs0.
Qed.

Lemma Good_timer_fires t g : t_req t <> h -> Good h g (timer_fires t g).
Proof.
  intros Hne. unfold timer_fires. destruct (heap g !! t_session t) as [s|] eqn:Es; [|apply Good_refl].
  destruct (map_has (t_id t) (pendingRequests s)); [|apply Good_refl].
  intros NR. assert (Hs : pend_ok h s) by exact (map_Forall_lookup_1 _ _ _ _ (proj1 NR) Es).
  revert NR. eapply Good_trans; [|apply Good_resolve; exact Hne].
  apply Good_upd. intros s0 _. apply map_delete_Forall. exact Hs.
Qed.

Lemma remove_nth_Forall {A} (P : A -> Prop) k (l : list A) : Forall P l -> Forall P (remove_nth k l).
Proof.
  revert k. induction l as [|x l IH]; intros k Hl; destruct k; simpl; auto.
  - inversion Hl; auto.
  - inversion Hl; subst. constructor; auto.
Qed.

Lemma Good_gw_close g : Good h g (gw_close g).
Proof.
  unfold gw_close. eapply Good_trans; [|apply Good_set_sessions].
  generalize g at 2. intros l. revert g. induction (sessions l) as [|kv st IH]; intros g; simpl.
  - apply Good_refl.
  - eapply Good_trans; [|apply IH]. apply Good_emit. exact I.
Qed.

Lemma Good_step g ev : ev_fresh h ev -> Good h g (step g ev).
Proof.
  destruct ev as [h' q hd body sp|res q hd sp|res|r data|r|r|k|]; simpl; intros Hf.
  - apply Good_handleMessage. exact Hf.
  - apply Good_handleSSE. exact Hf.
  - apply Good_close_request.
  - apply Good_handleStdioData.
  - apply Good_proc_error.
  - apply Good_proc_exit.
  - destruct (nth_error (timers g) k) as [t|] eqn:Et; [|apply Good_refl].
    intros NR. assert (Ht : t_req t <> h).
    { destruct NR as [_ NT]. apply nth_error_In in Et.
      exact (proj1 (List.Forall_forall _ _) NT _ Et). }
    revert NR. eapply Good_trans; [|apply Good_timer_fires; exact Ht].
    apply Good_set_timers. apply remove_nth_Forall.
  - apply Good_gw_close.
Qed.

Lemma Good_run g evs : Forall (ev_fresh h) evs -> Good h g (run g evs).
Proof.
  unfold run. revert g. induction evs as [|ev evs IH]; intros g Hf; simpl; [apply Good_refl|].
  apply Forall_cons in Hf as [H1 H2].
  eapply Good_trans; [apply Good_step; exact H1 | apply IH; exact H2].
Qed.

End Unanswered.

(** ** C1: resolution of requests *)

(** C1 (code_bug).  Two requests carrying the same id in one session:
    [pendingRequests.set] overwrites the first resolver, the first reply
    settles the second request, both timers find nothing to do, and the
    first HTTP request is never answered, whatever happens afterwards
    (as long as it is not answered by a request with its own handle). *)
Theorem C1_duplicate_id_request_never_answered :
  let g := run gw0 dup_id_events in
  out g = [Spawned 0; StdinWrite 0 tools_list_request; StdinWrite 0 tools_list_request;
           HttpResp 2 200 tools_list_reply] /\
  awaiting g = [1%nat] /\
  forall evs, Forall (ev_fresh 1) evs ->
    forall st b, ~ In (HttpResp 1 st b) (out (run g evs)).
Proof.
  intros g.
  assert (Eo : out g = [Spawned 0; StdinWrite 0 tools_list_request; StdinWrite 0 tools_list_request;
                        HttpResp 2 200 tools_list_reply]) by (vm_compute; reflexivity).
  split; [exact Eo|]. split; [vm_compute; reflexivity|].
  intros evs Hf st b Hin.
  assert (NR : no_ref 1 g).
  { split; [|vm_compute; constructor].
    apply map_Forall_to_list. vm_compute. repeat constructor. }
  destruct (Good_run 1 g evs Hf NR) as [_ [new [En Fn]]].
  rewrite En, Eo in Hin. apply in_app_or in Hin as [Hin|Hin].
  - simpl in Hin. intuition discriminate.
  - exact (proj1 (List.Forall_forall _ _) Fn _ Hin eq_refl).
Qed.

(** ** C2: the frame decoder *)

(** C2 (code_bug).  Each stdout chunk is decoded with [data.toString()]
    on its own, so a chunk boundary inside a multi-byte UTF-8 character
    turns it into two U+FFFD: the same bytes dispatch a different document
    depending on where the chunks are cut. *)
Theorem C2_chunk_split_in_utf8_char_changes_document :
  e_acute_chunk1 ++ e_acute_chunk2 = e_acute_line /\
  JSON_parse (removelast (buffer_toString e_acute_line)) = Some (JObj [(js "a", JStr [233])]) /\
  out (run g_sse [StdoutData 0 e_acute_line]) =
    out g_sse ++ [SsePush 5 (JObj [(js "a", JStr [233])])] /\
  out (run g_sse [StdoutData 0 e_acute_chunk1; StdoutData 0 e_acute_chunk2]) =
    out g_sse ++ [SsePush 5 (JObj [(js "a", JStr [65533; 65533])])].
Proof. repeat split; vm_compute; reflexivity. Qed.

(** ** C3: session creation failure *)

(** C3 (code_bug).  The [try]/[catch] around [spawn] in [createSession]
    reports only a spawn that throws; a spawn failure that Node reports
    through the child's 'error' event (a missing command: ENOENT) is not
    caught.  A request with an id for which no connected session exists
    spawns a process, stores the new session, writes the message to its
    stdin and waits; when the 'error' event then comes, no HTTP 500 is sent,
    the session stays stored under the id, and the request is later
    answered by its timeout, with status 200. *)
Theorem C3_async_spawn_failure_not_reported (g : Gw) (h : nat) (q hd : option jstr) (body i : json) :
  get_field body "id" = Some i ->
  is_method body "logging/setLevel" = false -> is_method body "resources/list" = false ->
  (forall r s, map_get (post_session_key h q hd body) (sessions g) = Some r ->
               heap g !! r = Some s -> connected s = false) ->
  let r := next_ref g in
  let g' := run g [Post h q hd body SpawnOk; ProcError r] in
  out g' = out g ++ [Spawned r; StdinWrite r body] /\
  map_get (post_session_key h q hd body) (sessions g') = Some r /\
  heap g' !! r = Some (mkSession (post_session_key h q hd body) [] None [(body_key h "id" i, h)] false) /\
  In h (awaiting g') /\
  out (step g' (TimerFires (length (timers g)))) = out g' ++ [HttpResp h 200 (timeout_response i)].
Proof.
  intros Hi Hm1 Hm2 Hdisc r g'.
  set (k := post_session_key h q hd body).
  set (ik := body_key h "id" i).
  pose proof (message_session_new k g Hdisc) as Em. fold r in Em.
  assert (E1 : step g (Post h q hd body SpawnOk) =
    set_timers (timers g ++ [mkTimer r ik h 30000])
      (mkGw (<[r := mkSession k [] None [(ik, h)] true]> (heap g)) (S r)
            (map_set k r (map_set k r (sessions g))) (timers g) (closeHandlers g) (awaiting g ++ [h])
            (out g ++ [Spawned r; StdinWrite r body]))).
  { simpl. unfold handleMessage. fold k. rewrite Em, Hi, Hm1, Hm2.
    unfold upd_session, sendToStdio, emit, set_timers, set_awaiting, set_heap. simpl.
    rewrite lookup_insert_eq. simpl. rewrite insert_insert_eq, <- app_assoc. reflexivity. }
  assert (Eg' : g' = set_heap (<[r := mkSession k [] None [(ik, h)] false]> (heap g))
      (set_timers (timers g ++ [mkTimer r ik h 30000])
        (mkGw (<[r := mkSession k [] None [(ik, h)] true]> (heap g)) (S r)
              (map_set k r (map_set k r (sessions g))) (timers g) (closeHandlers g) (awaiting g ++ [h])
              (out g ++ [Spawned r; StdinWrite r body])))).
  { unfold g', run. cbn [fold_left]. rewrite E1. cbn [step]. unfold proc_error, upd_session. simpl.
    rewrite lookup_insert_eq. simpl. rewrite insert_insert_eq. reflexivity. }
  assert (Hk : key_eq k k = true) by apply body_key_refl.
  assert (Hik : key_eq ik ik = true) by apply body_key_refl.
  split; [rewrite Eg'; reflexivity|].
  split; [rewrite Eg'; simpl; apply map_get_set_eq; exact Hk|].
  split; [rewrite Eg'; simpl; apply lookup_insert_eq|].
  split; [rewrite Eg'; simpl; apply in_or_app; right; left; reflexivity|].
  rewrite Eg'. simpl. rewrite nth_error_app2, Nat.sub_diag by lia. simpl.
  unfold timer_fires. simpl. rewrite lookup_insert_eq.
  unfold map_has. simpl. rewrite Hik.
  unfold resolve, upd_session. simpl. rewrite lookup_insert_eq.
  cbn [awaiting set_heap set_timers]. rewrite existsb_app. cbn [existsb]. rewrite Nat.eqb_refl, orb_true_r.
  simpl. unfold ik. rewrite key_val_body_key. reflexivity.
Qed.

Lemma C3_async_spawn_failure_not_reported_witness :
  get_field tools_list_request "id" = Some (JNum 1 0) /\
  out (run gw0 [Post 1 None None tools_list_request SpawnOk; ProcError 0]) =
    [Spawned 0; StdinWrite 0 tools_list_request] /\
  map_get (post_session_key 1 None None tools_list_request)
    (sessions (run gw0 [Post 1 None None tools_list_request SpawnOk; ProcError 0])) = Some 0%nat.
Proof.
  assert (H1 : get_field tools_list_request "id" = Some (JNum 1 0)) by reflexivity.
  assert (H2 : is_method tools_list_request "logging/setLevel" = false) by reflexivity.
  assert (H3 : is_method tools_list_request "resources/list" = false) by reflexivity.
  assert (H4 : forall r s, map_get (post_session_key 1 None None tools_list_request) (sessions gw0) = Some r ->
                           heap gw0 !! r = Some s -> connected s = false)
    by (intros r s E; discriminate E).
  destruct (C3_async_spawn_failure_not_reported gw0 1 None None tools_list_request _ H1 H2 H3 H4)
    as [Eo [Es _]].
  split; [exact H1|]. split; [exact Eo | exact Es].
Defined.

(** ** C4: the two delivery paths of a backend message *)

(** C4.  For a message from session [r]'s process: when its id has a
    pending entry, the entry is removed and the waiting request is answered
    with the message (if it is still waiting); independently, when an SSE
    response is attached, the message is written to it.  A message whose id
    has no entry (a late reply) leaves the sessions unchanged and still
    reaches the SSE response. *)
Theorem C4_dispatch_resolves_and_pushes (g : Gw) (r : nat) (s : Session) (m : json) :
  heap g !! r = Some s -> m <> JNull ->
  let hit := match get_field m "id" with
             | Some i => map_get (KVal i) (pendingRequests s)
             | None => None
             end in
  exists g', handleStdioMessage r m g = Some g' /\
    out g' = out g
             ++ (match hit with
                 | Some h => if existsb (Nat.eqb h) (awaiting g) then [HttpResp h 200 m] else []
                 | None => []
                 end)
             ++ (match sseResponse s with Some res => [SsePush res m] | None => [] end) /\
    (forall i h, get_field m "id" = Some i -> map_get (KVal i) (pendingRequests s) = Some h ->
       heap g' !! r = Some (with_pending (map_delete (KVal i) (pendingRequests s)) s)) /\
    (hit = None -> heap g' = heap g).
Proof.
  intros Hs Hm hit.
  assert (E : handleStdioMessage r m g = Some (push_sse r m (settle_pending r m g)))
    by (destruct m; [congruence|reflexivity..]).
  eexists; split; [exact E|].
  unfold settle_pending, hit. rewrite Hs.
  destruct (get_field m "id") as [i|]; [destruct (map_get (KVal i) (pendingRequests s)) as [h|] eqn:Eh|].
  - assert (Hh : heap (resolve h m (upd_session r (with_pending (map_delete (KVal i) (pendingRequests s))) g)) !! r
                 = Some (with_pending (map_delete (KVal i) (pendingRequests s)) s)).
    { unfold resolve, upd_session. rewrite Hs.
      destruct (existsb _ _); simpl; apply lookup_insert_eq. }
    unfold push_sse. rewrite Hh. simpl.
    unfold resolve, upd_session. rewrite Hs. cbn [awaiting set_heap].
    destruct (existsb (Nat.eqb h) (awaiting g)); simpl; destruct (sseResponse s); simpl.
    all: split; [rewrite <- ?app_assoc, ?app_nil_r; reflexivity|].
    all: split; [intros i' h' Ei _; injection Ei as <-; apply lookup_insert_eq | discriminate].
  - unfold push_sse. rewrite Hs.
    destruct (sseResponse s); simpl; (split; [rewrite ?app_nil_r; reflexivity|split; [congruence|auto]]).
  - unfold push_sse. rewrite Hs.
    destruct (sseResponse s); simpl; (split; [rewrite ?app_nil_r; reflexivity|split; [congruence|auto]]).
Qed.

Lemma C4_dispatch_resolves_and_pushes_witness :
  heap g_pending !! 0%nat = Some s_pending /\ tools_list_reply <> JNull /\
  exists g', handleStdioMessage 0 tools_list_reply g_pending = Some g' /\
    out g' = out g_pending ++ [HttpResp 2 200 tools_list_reply; SsePush 5 tools_list_reply].
Proof.
  assert (H1 : heap g_pending !! 0%nat = Some s_pending) by (vm_compute; reflexivity).
  assert (H2 : tools_list_reply <> JNull) by discriminate.
  split; [exact H1|]. split; [exact H2|].
  destruct (C4_dispatch_resolves_and_pushes g_pending 0 s_pending tools_list_reply H1 H2)
    as [g' [E [Eo _]]].
  exists g'. split; [exact E|]. rewrite Eo. vm_compute. reflexivity.
Defined.

(** ** The session obtained by [handleMessage] *)

Lemma message_session_effects k sp g r g1 :
  message_session k sp g = Some (r, g1) ->
  timers g1 = timers g /\ awaiting g1 = awaiting g /\
  (forall r' s', heap g1 !! r' = Some s' -> heap g !! r' = Some s' \/ pendingRequests s' = []) /\
  (out g1 = out g \/ out g1 = out g ++ [Spawned r]).
Proof.
  unfold message_session.
  destruct (match map_get k (sessions g) with Some r => _ | None => None end).
  - intros [= _ <-]. auto.
  - destruct sp; simpl; [|discriminate]. intros [= <- <-].
    unfold upd_session. cbn [heap emit]. rewrite lookup_insert_eq. cbn. repeat split; auto.
    intros r' s'. rewrite insert_insert_eq.
    destruct (decide (r' = next_ref g)) as [->|Hne].
    + rewrite lookup_insert_eq. intros [= <-]. auto.
    + rewrite lookup_insert_ne by congruence. auto.
Qed.

(** ** C5: intercepted methods *)

(** C5, counterexample.  The answer is not unconditional: when creating the
    session throws, a [logging/setLevel] request gets the HTTP 500 error. *)
Lemma C5_setLevel_gets_500_when_spawn_throws :
  out (handleMessage 1 None None setLevel_request SpawnThrows gw0) =
    [HttpResp 1 500 (jsonrpc_error (-32603) "Failed to create session")].
Proof. vm_compute. reflexivity. Qed.

(** C5, amended.  Once [handleMessage] has its session (a stored connected
    one, or one just created, which only adds a [Spawned] effect), a
    [logging/setLevel] request is answered with {jsonrpc:"2.0", id,
    result:{}} and a [resources/list] request with {jsonrpc:"2.0", id,
    result:{resources:[]}}: that single HTTP response is the only change, so
    nothing is written to stdin, no pending entry, timer or waiting promise
    is added.  If creating the session throws, the answer is the HTTP 500
    session-creation error. *)
Theorem C5_intercepted_methods_answered_locally (g : Gw) (h : nat) (q hd : option jstr)
    (body : json) (sp : SpawnResult) (i : json) :
  get_field body "id" = Some i ->
  (forall r g1, message_session (post_session_key h q hd body) sp g = Some (r, g1) ->
     timers g1 = timers g /\ awaiting g1 = awaiting g /\
     (out g1 = out g \/ out g1 = out g ++ [Spawned r]) /\
     (is_method body "logging/setLevel" = true ->
        handleMessage h q hd body sp g = emit (HttpResp h 200 (setLevel_response i)) g1) /\
     (is_method body "logging/setLevel" = false -> is_method body "resources/list" = true ->
        handleMessage h q hd body sp g = emit (HttpResp h 200 (resources_response i)) g1)) /\
  (message_session (post_session_key h q hd body) sp g = None ->
     handleMessage h q hd body sp g =
       emit (HttpResp h 500 (jsonrpc_error (-32603) "Failed to create session")) g).
Proof.
  intros Hi. split.
  - intros r g1 Em. destruct (message_session_effects _ _ _ _ _ Em) as [Et [Ea [_ Eo]]].
    repeat split; auto.
    + intros Hm. unfold handleMessage. rewrite Em, Hi, Hm. reflexivity.
    + intros Hm1 Hm2. unfold handleMessage. rewrite Em, Hi, Hm1, Hm2. reflexivity.
  - intros Em. unfold handleMessage. rewrite Em. reflexivity.
Qed.

Lemma C5_intercepted_methods_answered_locally_witness :
  get_field setLevel_request "id" = Some (JNum 1 0) /\
  handleMessage 1 None None setLevel_request SpawnOk gw0 =
    emit (HttpResp 1 200 (setLevel_response (JNum 1 0))) created_default.2.
Proof.
  assert (Hi : get_field setLevel_request "id" = Some (JNum 1 0)) by reflexivity.
  split; [exact Hi|].
  assert (Em : message_session (post_session_key 1 None None setLevel_request) SpawnOk gw0
               = Some (created_default.1, created_default.2)) by (vm_compute; reflexivity).
  destruct (C5_intercepted_methods_answered_locally gw0 1 None None setLevel_request SpawnOk _ Hi)
    as [H _].
  destruct (H _ _ Em) as [_ [_ [_ [Hs _]]]]. apply Hs. reflexivity.
Defined.

(** ** C6 and C9: notifications *)

(** Every message without an id, whatever its method. *)
Lemma notification_handled (g : Gw) (h : nat) (q hd : option jstr) (body : json) (sp : SpawnResult) :
  get_field body "id" = None ->
  (forall r g1, message_session (post_session_key h q hd body) sp g = Some (r, g1) ->
     handleMessage h q hd body sp g = emit (HttpResp h 202 (JObj [])) (emit (StdinWrite r body) g1) /\
     timers g1 = timers g /\ awaiting g1 = awaiting g /\
     (forall r' s', heap g1 !! r' = Some s' -> heap g !! r' = Some s' \/ pendingRequests s' = []) /\
     (out g1 = out g \/ out g1 = out g ++ [Spawned r])) /\
  (message_session (post_session_key h q hd body) sp g = None ->
     handleMessage h q hd body sp g =
       emit (HttpResp h 500 (jsonrpc_error (-32603) "Failed to create session")) g).
Proof.
  intros Hi. split.
  - intros r g1 Em. split; [unfold handleMessage; rewrite Em, Hi; reflexivity|].
    exact (message_session_effects _ _ _ _ _ Em).
  - intros Em. unfold handleMessage. rewrite Em. reflexivity.
Qed.

(** C6, counterexample.  When creating the session throws, a notification
    is answered with HTTP 500, not 202, and is not written anywhere. *)
Lemma C6_notification_gets_500_when_spawn_throws :
  out (handleMessage 1 None None initialized_notification SpawnThrows gw0) =
    [HttpResp 1 500 (jsonrpc_error (-32603) "Failed to create session")].
Proof. vm_compute. reflexivity. Qed.

(** C6, amended.  For a message without an id, once [handleMessage] has its
    session [r], the only effects are the stdin write of the message and the
    HTTP 202 response with [{}]: no pending entry (the sessions it may have
    created have none), no timer, no waiting promise.  If creating the
    session throws, the answer is the HTTP 500 session-creation error. *)
Theorem C6_notification_forwarded_and_acknowledged (g : Gw) (h : nat) (q hd : option jstr)
    (body : json) (sp : SpawnResult) :
  get_field body "id" = None ->
  (forall r g1, message_session (post_session_key h q hd body) sp g = Some (r, g1) ->
     handleMessage h q hd body sp g = emit (HttpResp h 202 (JObj [])) (emit (StdinWrite r body) g1) /\
     timers g1 = timers g /\ awaiting g1 = awaiting g /\
     (forall r' s', heap g1 !! r' = Some s' -> heap g !! r' = Some s' \/ pendingRequests s' = []) /\
     (out g1 = out g \/ out g1 = out g ++ [Spawned r])) /\
  (message_session (post_session_key h q hd body) sp g = None ->
     handleMessage h q hd body sp g =
       emit (HttpResp h 500 (jsonrpc_error (-32603) "Failed to create session")) g).
Proof. apply notification_handled. Qed.

Lemma C6_notification_forwarded_and_acknowledged_witness :
  get_field initialized_notification "id" = None /\
  handleMessage 1 None None initialized_notification SpawnOk gw0 =
    emit (HttpResp 1 202 (JObj [])) (emit (StdinWrite 0 initialized_notification) created_default.2).
Proof.
  assert (Hi : get_field initialized_notification "id" = None) by reflexivity.
  split; [exact Hi|].
  assert (Em : message_session (post_session_key 1 None None initialized_notification) SpawnOk gw0
               = Some (0%nat, created_default.2)) by (vm_compute; reflexivity).
  destruct (C6_notification_forwarded_and_acknowledged gw0 1 None None initialized_notification SpawnOk Hi)
    as [H _].
  exact (proj1 (H _ _ Em)).
Defined.

(** C9, counterexample.  Like any other message, a [logging/setLevel]
    notification gets HTTP 500 when creating the session throws. *)
Lemma C9_setLevel_notification_gets_500_when_spawn_throws :
  out (handleMessage 1 None None setLevel_notification SpawnThrows gw0) =
    [HttpResp 1 500 (jsonrpc_error (-32603) "Failed to create session")].
Proof. vm_compute. reflexivity. Qed.

(** C9, amended.  A notification whose method is [logging/setLevel] or
    [resources/list] is not intercepted: once [handleMessage] has its
    session [r] it is written to stdin and acknowledged with HTTP 202 [{}],
    as any notification; if creating the session throws, it gets the HTTP
    500 session-creation error, as any message. *)
Theorem C9_intercepted_method_notifications_forwarded (g : Gw) (h : nat) (q hd : option jstr)
    (body : json) (sp : SpawnResult) :
  get_field body "id" = None ->
  is_method body "logging/setLevel" = true \/ is_method body "resources/list" = true ->
  (forall r g1, message_session (post_session_key h q hd body) sp g = Some (r, g1) ->
     handleMessage h q hd body sp g = emit (HttpResp h 202 (JObj [])) (emit (StdinWrite r body) g1)) /\
  (message_session (post_session_key h q hd body) sp g = None ->
     handleMessage h q hd body sp g =
       emit (HttpResp h 500 (jsonrpc_error (-32603) "Failed to create session")) g).
Proof.
  intros Hi _. destruct (notification_handled g h q hd body sp Hi) as [H1 H2].
  split; [|exact H2]. intros r g1 Em. exact (proj1 (H1 r g1 Em)).
Qed.

Lemma C9_intercepted_method_notifications_forwarded_witness :
  get_field setLevel_notification "id" = None /\
  is_method setLevel_notification "logging/setLevel" = true /\
  handleMessage 1 None None setLevel_notification SpawnOk gw0 =
    emit (HttpResp 1 202 (JObj [])) (emit (StdinWrite 0 setLevel_notification) created_default.2).
Proof.
  assert (Hi : get_field setLevel_notification "id" = None) by reflexivity.
  assert (Hm : is_method setLevel_notification "logging/setLevel" = true) by reflexivity.
  split; [exact Hi|]. split; [exact Hm|].
  assert (Em : message_session (post_session_key 1 None None setLevel_notification) SpawnOk gw0
               = Some (0%nat, created_default.2)) by (vm_compute; reflexivity).
  destruct (C9_intercepted_method_notifications_forwarded gw0 1 None None setLevel_notification SpawnOk
              Hi (or_introl Hm)) as [H _].
  exact (H _ _ Em).
Defined.

(** ** SSE sinks *)

Lemma handleSSE_existing (g : Gw) (res : nat) (q hd : option jstr) (sp : SpawnResult) (r : nat) (s : Session) :
  map_get (KVal (sse_session_id q hd)) (sessions g) = Some r -> heap g !! r = Some s ->
  handleSSE res q hd sp g =
    set_close (closeHandlers g ++ [(res, r)])
      (emit (SseOk res) (set_heap (<[r := with_sse (Some res) s]> (heap g)) g)).
Proof. intros Er Es. unfold handleSSE. rewrite Er. simpl. unfold upd_session. rewrite Es. reflexivity. Qed.

Lemma filter_fresh_handlers (res : nat) (l : list (nat * nat)) :
  Forall (fun c => c.1 <> res) l ->
  List.filter (fun c => Nat.eqb c.1 res) l = [] /\
  List.filter (fun c => negb (Nat.eqb c.1 res)) l = l.
Proof.
  induction 1 as [|c l Hc Hl [IH1 IH2]]; simpl; [auto|].
  apply Nat.eqb_neq in Hc. rewrite Hc. simpl. rewrite IH1, IH2. auto.
Qed.

Lemma sse_close_handlers res r g : closeHandlers (sse_close res r g) = closeHandlers g.
Proof.
  unfold sse_close, upd_session.
  destruct (heap g !! r) as [s|]; [|reflexivity].
  destruct (sseResponse s) as [res'|]; [|reflexivity].
  destruct (Nat.eqb res' res); reflexivity.
Qed.

(** Closing a response whose only close handler is the one for session [r]. *)
Lemma close_request_single (g : Gw) (res r : nat) (s : Session) :
  List.filter (fun c => Nat.eqb c.1 res) (closeHandlers g) = [(res, r)] ->
  heap g !! r = Some s ->
  heap (close_request res g) =
    match sseResponse s with
    | Some res' => if Nat.eqb res' res then <[r := with_sse None s]> (heap g) else heap g
    | None => heap g
    end.
Proof.
  intros Ec Es. unfold close_request. rewrite Ec. simpl.
  unfold sse_close. simpl. rewrite Es.
  destruct (sseResponse s) as [res'|]; [|reflexivity].
  destruct (Nat.eqb res' res); [|reflexivity].
  unfold upd_session. simpl. rewrite Es. reflexivity.
Qed.

(** ** C7: replacing the SSE sink *)

(** C7.  Two SSE connections in turn for a stored session: the second
    replaces the first; the close of the first leaves the second in place,
    so a backend message is pushed to the second only; the close of the
    second clears it. *)
Theorem C7_new_sse_replaces_and_stale_close_kept (g : Gw) (k : jstr) (r : nat) (s : Session)
    (res1 res2 : nat) (sp1 sp2 : SpawnResult) :
  k <> [] -> map_get (KVal (JStr k)) (sessions g) = Some r -> heap g !! r = Some s ->
  res1 <> res2 -> Forall (fun c => c.1 <> res1 /\ c.1 <> res2) (closeHandlers g) ->
  let g' := run g [SseOpen res1 (Some k) None sp1; SseOpen res2 (Some k) None sp2; ReqClose res1] in
  heap g' !! r = Some (with_sse (Some res2) s) /\
  (forall m, m <> JNull -> exists pre g'', handleStdioMessage r m g' = Some g'' /\
     out g'' = out g' ++ pre ++ [SsePush res2 m] /\
     Forall (fun e => forall res x, e <> SsePush res x) pre) /\
  heap (step g' (ReqClose res2)) !! r = Some (with_sse None s).
Proof.
  intros Hk Er Es Hne Hf.
  assert (Ek : sse_session_id (Some k) None = JStr k) by (destruct k; [congruence|reflexivity]).
  assert (Hf1 : Forall (fun c => c.1 <> res1) (closeHandlers g))
    by (eapply Forall_impl; [exact Hf | intros c [? ?]; assumption]).
  assert (Hf2 : Forall (fun c => c.1 <> res2) (closeHandlers g))
    by (eapply Forall_impl; [exact Hf | intros c [? ?]; assumption]).
  destruct (filter_fresh_handlers _ _ Hf1) as [F1 N1].
  destruct (filter_fresh_handlers _ _ Hf2) as [F2 N2].
  pose proof Hne as Hne'. apply Nat.eqb_neq in Hne. apply Nat.neq_sym, Nat.eqb_neq in Hne'.
  set (g1 := step g (SseOpen res1 (Some k) None sp1)).
  assert (E1 : g1 = set_close (closeHandlers g ++ [(res1, r)])
                      (emit (SseOk res1) (set_heap (<[r := with_sse (Some res1) s]> (heap g)) g)))
    by (apply handleSSE_existing; [rewrite Ek; exact Er | exact Es]).
  set (g2 := step g1 (SseOpen res2 (Some k) None sp2)).
  assert (E2 : g2 = set_close (closeHandlers g1 ++ [(res2, r)])
                      (emit (SseOk res2) (set_heap (<[r := with_sse (Some res2) (with_sse (Some res1) s)]> (heap g1)) g1))).
  { apply handleSSE_existing.
    - rewrite Ek, E1. exact Er.
    - rewrite E1. apply lookup_insert_eq. }
  assert (Hs2 : heap g2 !! r = Some (with_sse (Some res2) s)).
  { rewrite E2. simpl. rewrite lookup_insert_eq. reflexivity. }
  assert (C2 : closeHandlers g2 = closeHandlers g ++ [(res1, r); (res2, r)]).
  { rewrite E2, E1. simpl. rewrite <- app_assoc. reflexivity. }
  set (g3 := step g2 (ReqClose res1)).
  assert (E3 : heap g3 = heap g2).
  { unfold g3. simpl.
    rewrite (close_request_single g2 res1 r _ ltac:(rewrite C2, List.filter_app, F1; simpl;
                                                   rewrite Nat.eqb_refl, Hne'; reflexivity) Hs2).
    simpl. rewrite Hne'. reflexivity. }
  assert (C3 : closeHandlers g3 = closeHandlers g ++ [(res2, r)]).
  { unfold g3. simpl. unfold close_request. rewrite C2, List.filter_app, F1. simpl.
    rewrite Nat.eqb_refl, Hne'. simpl. rewrite sse_close_handlers. simpl.
    rewrite List.filter_app, N1. simpl. rewrite Nat.eqb_refl, Hne'. reflexivity. }
  assert (Hs3 : heap g3 !! r = Some (with_sse (Some res2) s)) by (rewrite E3; exact Hs2).
  change (run g [SseOpen res1 (Some k) None sp1; SseOpen res2 (Some k) None sp2; ReqClose res1]) with g3.
  split; [exact Hs3|]. split.
  - intros m Hm.
    assert (E : handleStdioMessage r m g3 = Some (push_sse r m (settle_pending r m g3)))
      by (destruct m; [congruence|reflexivity..]).
    assert (Hset : exists pre, out (settle_pending r m g3) = out g3 ++ pre /\
                     Forall (fun e => forall res x, e <> SsePush res x) pre /\
                     exists s', heap (settle_pending r m g3) !! r = Some s' /\ sseResponse s' = Some res2).
    { unfold settle_pending. rewrite Hs3.
      destruct (get_field m "id") as [i|]; [destruct (map_get (KVal i) _) as [h|]|].
      - unfold resolve, upd_session. rewrite Hs3. cbn [awaiting set_heap].
        destruct (existsb _ _); simpl.
        + exists [HttpResp h 200 m]. split; [reflexivity|]. split.
          * constructor; [intros ? ? ?; discriminate | constructor].
          * eexists. rewrite lookup_insert_eq. split; reflexivity.
        + exists []. rewrite app_nil_r. split; [reflexivity|]. split; [constructor|].
          eexists. rewrite lookup_insert_eq. split; reflexivity.
      - exists []. rewrite app_nil_r. repeat split; [constructor|]. eexists. split; [exact Hs3|reflexivity].
      - exists []. rewrite app_nil_r. repeat split; [constructor|]. eexists. split; [exact Hs3|reflexivity]. }
    destruct Hset as [pre [Eo [Fp [s' [Hs' Ess]]]]].
    exists pre, (push_sse r m (settle_pending r m g3)). split; [exact E|]. split; [|exact Fp].
    unfold push_sse. rewrite Hs', Ess. simpl. rewrite Eo, <- app_assoc. reflexivity.
  - simpl.
    rewrite (close_request_single g3 res2 r _ ltac:(rewrite C3, List.filter_app, F2; simpl;
                                                   rewrite Nat.eqb_refl; reflexivity) Hs3).
    simpl. rewrite Nat.eqb_refl. apply lookup_insert_eq.
Qed.

Lemma C7_new_sse_replaces_and_stale_close_kept_witness :
  js "default-session" <> [] /\
  map_get (KVal (JStr (js "default-session"))) (sessions g_sse) = Some 0%nat /\
  heap g_sse !! 0%nat = Some s_sse /\ (6 <> 7)%nat /\
  Forall (fun c => c.1 <> 6%nat /\ c.1 <> 7%nat) (closeHandlers g_sse) /\
  heap (run g_sse [SseOpen 6 (Some (js "default-session")) None SpawnOk;
                   SseOpen 7 (Some (js "default-session")) None SpawnOk; ReqClose 6]) !! 0%nat
    = Some (with_sse (Some 7%nat) s_sse).
Proof.
  assert (H1 : js "default-session" <> []) by discriminate.
  assert (H2 : map_get (KVal (JStr (js "default-session"))) (sessions g_sse) = Some 0%nat) by (vm_compute; reflexivity).
  assert (H3 : heap g_sse !! 0%nat = Some s_sse) by (vm_compute; reflexivity).
  assert (H4 : (6 <> 7)%nat) by lia.
  assert (H5 : Forall (fun c => c.1 <> 6%nat /\ c.1 <> 7%nat) (closeHandlers g_sse)).
  { vm_compute. constructor; [split; lia | constructor]. }
  split; [exact H1|]. split; [exact H2|]. split; [exact H3|]. split; [exact H4|]. split; [exact H5|].
  exact (proj1 (C7_new_sse_replaces_and_stale_close_kept g_sse _ 0 s_sse 6 7 SpawnOk SpawnOk
                  H1 H2 H3 H4 H5)).
Defined.

(** ** Process 'exit' and 'error' *)

Lemma proc_exit_effects (g : Gw) (r : nat) (s : Session) :
  heap g !! r = Some s ->
  let g' := proc_exit r g in
  heap g' = <[r := with_connected false s]> (heap g) /\
  sessions g' = map_delete (s_id s) (sessions g) /\
  timers g' = timers g /\ awaiting g' = awaiting g /\ out g' = out g /\
  next_ref g' = next_ref g /\ closeHandlers g' = closeHandlers g.
Proof. intros Es. unfold proc_exit, upd_session. rewrite Es. simpl. repeat split. Qed.

(** ** C8: process exit *)




(** ** C10: process 'error' *)

(** C10.  The 'error' event of session [r]'s process only marks it
    disconnected: the Session Store keeps it, and a following SSE
    connection for its id reuses it (no spawn) and attaches to the
    disconnected session; only the 'exit' event deletes the entry. *)
Theorem C10_error_keeps_disconnected_session_stored (g : Gw) (k : jstr) (r : nat) (s : Session)
    (res : nat) (sp : SpawnResult) :
  k <> [] -> map_get (KVal (JStr k)) (sessions g) = Some r -> heap g !! r = Some s ->
  let g1 := step g (ProcError r) in
  sessions g1 = sessions g /\ heap g1 !! r = Some (with_connected false s) /\
  (let g2 := step g1 (SseOpen res (Some k) None sp) in
   sessions g2 = sessions g /\ next_ref g2 = next_ref g /\
   out g2 = out g ++ [SseOk res] /\
   heap g2 !! r = Some (with_sse (Some res) (with_connected false s))) /\
  map_get (s_id s) (sessions (step g (ProcExit r))) = None.
Proof.
  intros Hk Er Es.
  assert (Ek : sse_session_id (Some k) None = JStr k) by (destruct k; [congruence|reflexivity]).
  assert (Eh1 : heap (step g (ProcError r)) !! r = Some (with_connected false s)).
  { simpl. unfold proc_error, upd_session. rewrite Es. apply lookup_insert_eq. }
  assert (Es1 : sessions (step g (ProcError r)) = sessions g).
  { simpl. unfold proc_error, upd_session. rewrite Es. reflexivity. }
  split; [exact Es1|]. split; [exact Eh1|]. split.
  - change (step (step g (ProcError r)) (SseOpen res (Some k) None sp))
      with (handleSSE res (Some k) None sp (step g (ProcError r))).
    rewrite (handleSSE_existing _ res _ _ sp r _ ltac:(rewrite Ek, Es1; exact Er) Eh1).
    simpl. unfold proc_error, upd_session. rewrite Es. simpl.
    split; [reflexivity|]. split; [reflexivity|]. split; [reflexivity|].
    rewrite insert_insert_eq. apply lookup_insert_eq.
  - destruct (proc_exit_effects g r s Es) as [_ [Est _]]. simpl. rewrite Est. apply map_get_delete.
Qed.

Lemma C10_error_keeps_disconnected_session_stored_witness :
  js "default-session" <> [] /\
  map_get (KVal (JStr (js "default-session"))) (sessions g_sse) = Some 0%nat /\
  heap g_sse !! 0%nat = Some s_sse /\
  sessions (step g_sse (ProcError 0)) = sessions g_sse.
Proof.
  assert (H1 : js "default-session" <> []) by discriminate.
  assert (H2 : map_get (KVal (JStr (js "default-session"))) (sessions g_sse) = Some 0%nat) by (vm_compute; reflexivity).
  assert (H3 : heap g_sse !! 0%nat = Some s_sse) by (vm_compute; reflexivity).
  split; [exact H1|]. split; [exact H2|]. split; [exact H3|].
  exact (proj1 (C10_error_keeps_disconnected_session_stored g_sse _ 0 s_sse 6 SpawnOk H1 H2 H3)).
Defined.

(** * Further properties of the gateway *)

(** ** The UTF-8 decoder at an ASCII byte *)

Lemma u8start_ok (b : Z) : needed (u8start b).2 = 0 \/ 128 <= lower (u8start b).2.
Proof.
  unfold u8start.
  repeat match goal with |- context [if ?c then _ else _] => destruct c end; simpl; lia.
Qed.

(** After an ASCII byte the decoder is back in its initial state, so the
    text decoded after it does not depend on what came before. *)
Lemma u8dec_ascii_cut (a : list Z) : forall (st : u8st) (x : Z) (b : list Z),
  (needed st = 0 \/ 128 <= lower st) -> x <= 127 ->
  u8dec st (a ++ x :: b) = u8dec st (a ++ [x]) ++ u8dec u8init b.
Proof.
  induction a as [|y a IH]; intros st x b Hst Hx; simpl.
  - assert (Hs : u8start x = ([x], u8init)) by (unfold u8start; rewrite (proj2 (Z.leb_le x 127) Hx); reflexivity).
    destruct (needed st =? 0) eqn:En.
    + rewrite Hs. reflexivity.
    + destruct Hst as [Hst|Hst]; [apply Z.eqb_neq in En; contradiction|].
      assert (Hl : (lower st <=? x) = false) by (apply Z.leb_gt; lia).
      rewrite Hl. simpl. rewrite Hs. reflexivity.
  - destruct (needed st =? 0) eqn:En.
    + pose proof (u8start_ok y) as Hok. destruct (u8start y) as [o st'].
      rewrite (IH st' x b Hok Hx). rewrite app_assoc. reflexivity.
    + destruct (negb _).
      * pose proof (u8start_ok y) as Hok. destruct (u8start y) as [o st'].
        rewrite (IH st' x b Hok Hx). rewrite app_comm_cons, app_assoc. reflexivity.
      * destruct (seen st + 1 =? needed st).
        -- rewrite (IH u8init x b (or_introl eq_refl) Hx). rewrite app_assoc. reflexivity.
        -- apply IH; [right; simpl; lia | exact Hx].
Qed.

Lemma buffer_toString_app_ascii (a b : list Z) :
  List.last a 0 <= 127 -> buffer_toString (a ++ b) = buffer_toString a ++ buffer_toString b.
Proof.
  destruct a as [|y a0]; [reflexivity|].
  destruct (@exists_last _ (y :: a0) ltac:(discriminate)) as [a' [x ->]].
  rewrite List.last_last. intros Hx. unfold buffer_toString.
  rewrite <- app_assoc. simpl. apply u8dec_ascii_cut; [left; reflexivity | exact Hx].
Qed.

(** ** Cutting the buffer into lines *)

Lemma pop_last_snoc (c : list jstr) (r : jstr) : pop_last (c ++ [r]) = (c, r).
Proof.
  induction c as [|x c IH]; [reflexivity|]. destruct c as [|y c]; [reflexivity|].
  replace (pop_last ((x :: y :: c) ++ [r]))
    with (let '(a, b) := pop_last ((y :: c) ++ [r]) in (x :: a, b)) by reflexivity.
  rewrite IH. reflexivity.
Qed.

(** [split('\n')] of a text: the newline-terminated lines [c] and the rest
    [r]; appending text only extends the rest. *)
Lemma split_nl_app (X Y : jstr) : exists c r,
  split_nl X = c ++ [r] /\ split_nl (X ++ Y) = c ++ split_nl (r ++ Y) /\
  X = concat (map (fun l => l ++ [10]) c) ++ r /\ ~ In 10 r /\ Forall (fun l => ~ In 10 l) c.
Proof.
  induction X as [|x X IH].
  - exists [], []. split; [reflexivity|]. split; [reflexivity|]. split; [reflexivity|].
    split; [intros []|constructor].
  - destruct IH as [c [r [E1 [E2 [E3 [Hr Hc]]]]]].
    destruct (x =? 10) eqn:Ex.
    + apply Z.eqb_eq in Ex. subst x. exists ([] :: c), r. cbn [split_nl app]. rewrite E1, E2.
      simpl. rewrite E3 at 1. split; [reflexivity|]. split; [reflexivity|]. split; [reflexivity|].
      split; [exact Hr|]. constructor; [intros []|exact Hc].
    + apply Z.eqb_neq in Ex. destruct c as [|c0 cs].
      * exists [], (x :: r). cbn [split_nl app]. rewrite (proj2 (Z.eqb_neq x 10) Ex).
        rewrite E1, E2. simpl in E3 |- *. subst X. split; [reflexivity|]. split; [reflexivity|].
        split; [reflexivity|]. split; [|constructor]. intros [H|H]; [congruence | contradiction].
      * exists ((x :: c0) :: cs), r. cbn [split_nl app]. rewrite (proj2 (Z.eqb_neq x 10) Ex).
        rewrite E1, E2. simpl. rewrite E3. simpl. repeat split; auto.
        inversion Hc as [|? ? Hc0 Hcs]; subst. constructor; [|exact Hcs].
        intros [H|H]; [congruence | contradiction].
Qed.

Lemma dispatch_lines_app (r : nat) (l1 l2 : list jstr) (g : Gw) :
  dispatch_lines r (l1 ++ l2) g = dispatch_lines r l2 (dispatch_lines r l1 g).
Proof. revert g. induction l1 as [|x l1 IH]; intros g; simpl; [reflexivity | apply IH]. Qed.

(** ** Updates of one session commute with updates of other fields *)

Lemma lookup_upd (r r' : nat) (f : Session -> Session) (g : Gw) :
  heap (upd_session r f g) !! r' = if decide (r = r') then f <$> heap g !! r' else heap g !! r'.
Proof.
  unfold upd_session. destruct (heap g !! r) as [s|] eqn:E; simpl; destruct (decide (r = r')) as [<-|Hne].
  - rewrite lookup_insert_eq, E. reflexivity.
  - rewrite lookup_insert_ne by exact Hne. reflexivity.
  - rewrite E. reflexivity.
  - reflexivity.
Qed.

Lemma upd_comm (r1 r2 : nat) (f k : Session -> Session) (g : Gw) :
  (forall s, f (k s) = k (f s)) ->
  upd_session r1 f (upd_session r2 k g) = upd_session r2 k (upd_session r1 f g).
Proof.
  intros Hc. unfold upd_session.
  destruct (decide (r1 = r2)) as [<-|Hne].
  - destruct (heap g !! r1) as [s|] eqn:E; simpl; [|rewrite E; reflexivity].
    rewrite !lookup_insert_eq, !insert_insert_eq, Hc. reflexivity.
  - destruct (heap g !! r1) as [s1|] eqn:E1, (heap g !! r2) as [s2|] eqn:E2; simpl;
      rewrite ?lookup_insert_ne, ?E1, ?E2 by congruence; simpl; try reflexivity.
    rewrite insert_insert_ne by congruence. reflexivity.
Qed.

Lemma upd_emit (r : nat) (f : Session -> Session) (e : Effect) (g : Gw) :
  upd_session r f (emit e g) = emit e (upd_session r f g).
Proof. unfold upd_session. simpl. destruct (heap g !! r); reflexivity. Qed.

Lemma upd_set_awaiting (r : nat) (f : Session -> Session) (aw : list nat) (g : Gw) :
  upd_session r f (set_awaiting aw g) = set_awaiting aw (upd_session r f g).
Proof. unfold upd_session. simpl. destruct (heap g !! r); reflexivity. Qed.

Lemma awaiting_upd (r : nat) (f : Session -> Session) (g : Gw) :
  awaiting (upd_session r f g) = awaiting g.
Proof. unfold upd_session. destruct (heap g !! r); reflexivity. Qed.

Lemma out_upd (r : nat) (f : Session -> Session) (g : Gw) : out (upd_session r f g) = out g.
Proof. unfold upd_session. destruct (heap g !! r); reflexivity. Qed.

Lemma sessions_upd (r : nat) (f : Session -> Session) (g : Gw) : sessions (upd_session r f g) = sessions g.
Proof. unfold upd_session. destruct (heap g !! r); reflexivity. Qed.

Lemma timers_upd (r : nat) (f : Session -> Session) (g : Gw) : timers (upd_session r f g) = timers g.
Proof. unfold upd_session. destruct (heap g !! r); reflexivity. Qed.

Lemma resolve_upd (r h : nat) (f : Session -> Session) (m : json) (g : Gw) :
  upd_session r f (resolve h m g) = resolve h m (upd_session r f g).
Proof.
  unfold resolve. rewrite awaiting_upd. destruct (existsb _ _); [|reflexivity].
  rewrite upd_emit, upd_set_awaiting. reflexivity.
Qed.

Section BufferUpdate.
Variables (r0 : nat) (x : jstr).

Lemma with_buffer_pending p s : with_pending p (with_buffer x s) = with_buffer x (with_pending p s).
Proof. destruct s; reflexivity. Qed.

Lemma settle_pending_buf r m g :
  settle_pending r m (upd_session r0 (with_buffer x) g) = upd_session r0 (with_buffer x) (settle_pending r m g).
Proof.
  unfold settle_pending. destruct (get_field m "id") as [i|]; [|reflexivity].
  rewrite lookup_upd. destruct (decide (r0 = r)) as [<-|Hne].
  - destruct (heap g !! r0) as [s|]; simpl; [|reflexivity].
    destruct (map_get (KVal i) (pendingRequests s)) as [h|]; [|reflexivity].
    rewrite upd_comm by apply with_buffer_pending. rewrite resolve_upd. reflexivity.
  - destruct (heap g !! r) as [s|]; [|reflexivity].
    destruct (map_get (KVal i) (pendingRequests s)) as [h|]; [|reflexivity].
    rewrite upd_comm by apply with_buffer_pending. rewrite resolve_upd. reflexivity.
Qed.

Lemma push_sse_buf r m g :
  push_sse r m (upd_session r0 (with_buffer x) g) = upd_session r0 (with_buffer x) (push_sse r m g).
Proof.
  unfold push_sse. rewrite lookup_upd. destruct (decide (r0 = r)) as [<-|Hne].
  - destruct (heap g !! r0) as [s|]; simpl; [|reflexivity].
    destruct (sseResponse s); [|reflexivity]. rewrite upd_emit. reflexivity.
  - destruct (heap g !! r) as [s|]; [|reflexivity].
    destruct (sseResponse s); [|reflexivity]. rewrite upd_emit. reflexivity.
Qed.

Lemma handleStdioMessage_buf r m g :
  handleStdioMessage r m (upd_session r0 (with_buffer x) g) =
    upd_session r0 (with_buffer x) <$> handleStdioMessage r m g.
Proof.
  unfold handleStdioMessage. destruct m; try reflexivity;
    simpl; rewrite settle_pending_buf, push_sse_buf; reflexivity.
Qed.

Lemma dispatch_lines_buf r lines g :
  dispatch_lines r lines (upd_session r0 (with_buffer x) g) =
    upd_session r0 (with_buffer x) (dispatch_lines r lines g).
Proof.
  revert g. induction lines as [|line lines IH]; intros g; simpl; [reflexivity|].
  rewrite <- IH. f_equal.
  destruct (trim_nonempty line); [|reflexivity].
  destruct (JSON_parse line) as [m|]; [|reflexivity].
  rewrite handleStdioMessage_buf. destruct (handleStdioMessage r m g); reflexivity.
Qed.

End BufferUpdate.

Lemma upd_buf_buf (r : nat) (x y : jstr) (g : Gw) :
  upd_session r (with_buffer x) (upd_session r (with_buffer y) g) = upd_session r (with_buffer x) g.
Proof.
  unfold upd_session. destruct (heap g !! r) as [s|] eqn:E; simpl; [|rewrite E; reflexivity].
  rewrite lookup_insert_eq, insert_insert_eq. destruct s. reflexivity.
Qed.

(** The operations of the stdout handler keep every session in the heap. *)
Lemma upd_some (r r' : nat) (f : Session -> Session) (g : Gw) :
  is_Some (heap g !! r') -> is_Some (heap (upd_session r f g) !! r').
Proof.
  rewrite lookup_upd. destruct (decide (r = r')); [|auto].
  intros [s ->]. simpl. eauto.
Qed.

Lemma resolve_heap (h : nat) (m : json) (g : Gw) : heap (resolve h m g) = heap g.
Proof. unfold resolve. destruct (existsb _ _); reflexivity. Qed.

Lemma handleStdioMessage_some (r r' : nat) (m : json) (g g' : Gw) :
  handleStdioMessage r m g = Some g' -> is_Some (heap g !! r') -> is_Some (heap g' !! r').
Proof.
  unfold handleStdioMessage. intros E.
  assert (Hg' : g' = push_sse r m (settle_pending r m g)) by (destruct m; congruence).
  subst g'. intros Hs.
  assert (H1 : is_Some (heap (settle_pending r m g) !! r')).
  { unfold settle_pending. destruct (get_field m "id"); [|exact Hs].
    destruct (heap g !! r) as [s|]; [|exact Hs]. destruct (map_get _ _); [|exact Hs].
    rewrite resolve_heap. apply upd_some. exact Hs. }
  unfold push_sse. destruct (heap (settle_pending r m g) !! r) as [s|]; [|exact H1].
  destruct (sseResponse s); exact H1.
Qed.

Lemma dispatch_lines_some (r r' : nat) (lines : list jstr) (g : Gw) :
  is_Some (heap g !! r') -> is_Some (heap (dispatch_lines r lines g) !! r').
Proof.
  revert g. induction lines as [|line lines IH]; intros g Hs; simpl; [exact Hs|].
  apply IH. destruct (trim_nonempty line); [|exact Hs].
  destruct (JSON_parse line) as [m|]; [|exact Hs].
  destruct (handleStdioMessage r m g) eqn:E; [|exact Hs].
  eapply handleStdioMessage_some; eauto.
Qed.

(** ** The frame decoder [handleStdioData] *)

(** [handleStdioData] cuts the session's buffer followed by the decoded
    chunk into newline-terminated lines, which it dispatches in order, and an
    unterminated rest without any newline, which becomes the new buffer. *)
Theorem handleStdioData_lines_and_rest (r : nat) (data : list Z) (g : Gw) (s : Session) :
  heap g !! r = Some s ->
  exists lines rest,
    messageBuffer s ++ buffer_toString data = concat (map (fun l => l ++ [10]) lines) ++ rest /\
    Forall (fun l => ~ In 10 l) lines /\ ~ In 10 rest /\
    handleStdioData r data g = dispatch_lines r lines (upd_session r (with_buffer rest) g) /\
    exists s', heap (handleStdioData r data g) !! r = Some s' /\ messageBuffer s' = rest.
Proof.
  intros Es.
  destruct (split_nl_app (messageBuffer s ++ buffer_toString data) []) as [c [rest [E1 [_ [E3 [Hr Hc]]]]]].
  assert (Ed : handleStdioData r data g = dispatch_lines r c (upd_session r (with_buffer rest) g)).
  { unfold handleStdioData. rewrite Es, E1, pop_last_snoc. reflexivity. }
  exists c, rest. split; [exact E3|]. split; [exact Hc|]. split; [exact Hr|]. split; [exact Ed|].
  rewrite Ed, dispatch_lines_buf, lookup_upd, decide_True by reflexivity.
  destruct (dispatch_lines_some r r c g ltac:(rewrite Es; eauto)) as [s' Es'].
  rewrite Es'. exists (with_buffer rest s'). split; reflexivity.
Qed.

Lemma handleStdioData_lines_and_rest_witness :
  heap g_sse !! 0%nat = Some s_sse /\
  exists s', heap (handleStdioData 0 (tools_list_reply_bytes ++ jq "{'jsonrpc'") g_sse) !! 0%nat = Some s' /\
             ~ In 10 (messageBuffer s').
Proof.
  assert (H : heap g_sse !! 0%nat = Some s_sse) by (vm_compute; reflexivity).
  split; [exact H|].
  destruct (handleStdioData_lines_and_rest 0 (tools_list_reply_bytes ++ jq "{'jsonrpc'") g_sse s_sse H)
    as [lines [rest [_ [_ [Hr [_ [s' [Es' Eb]]]]]]]].
  exists s'. rewrite Eb. split; [exact Es' | exact Hr].
Defined.

(** Two stdout chunks fed one after the other have the same effect as
    their concatenation fed at once, whenever the first chunk ends with an
    ASCII byte (for instance a newline): such a cut never falls inside a
    UTF-8 character, and the line splitting does not depend on where the
    chunks are cut. *)
Theorem handleStdioData_chunks_compose (r : nat) (a b : list Z) (g : Gw) :
  List.last a 0 <= 127 ->
  handleStdioData r b (handleStdioData r a g) = handleStdioData r (a ++ b) g.
Proof.
  intros Ha. unfold handleStdioData at 2 3.
  destruct (heap g !! r) as [s|] eqn:Es.
  2: { unfold handleStdioData. rewrite Es. reflexivity. }
  rewrite buffer_toString_app_ascii by exact Ha. rewrite app_assoc.
  destruct (split_nl_app (messageBuffer s ++ buffer_toString a) (buffer_toString b))
    as [c1 [r1 [E1 [E2 _]]]].
  destruct (split_nl_app (r1 ++ buffer_toString b) []) as [c2 [r2 [E4 _]]].
  rewrite E1, pop_last_snoc, E2, E4, app_assoc, pop_last_snoc.
  cbv iota beta. rewrite dispatch_lines_app.
  rewrite dispatch_lines_buf.
  destruct (dispatch_lines_some r r c1 g ltac:(rewrite Es; eauto)) as [sD EsD].
  unfold handleStdioData. rewrite lookup_upd, decide_True, EsD by reflexivity. simpl.
  rewrite E4, pop_last_snoc. cbv iota beta.
  rewrite upd_buf_buf, !dispatch_lines_buf. reflexivity.
Qed.

Lemma handleStdioData_chunks_compose_witness :
  List.last (jq "{'jsonrpc':'2.0',") 0 <= 127 /\
  handleStdioData 0 (jq "'id':1,'result':{'tools':[]}}" ++ [10])
    (handleStdioData 0 (jq "{'jsonrpc':'2.0',") g_pending) =
  handleStdioData 0 (jq "{'jsonrpc':'2.0',"  ++ jq "'id':1,'result':{'tools':[]}}" ++ [10]) g_pending.
Proof.
  assert (H : List.last (jq "{'jsonrpc':'2.0',") 0 <= 127) by (apply Z.leb_le; vm_compute; reflexivity).
  split; [exact H|]. apply handleStdioData_chunks_compose. exact H.
Defined.

(** A line that is blank, is not valid JSON, or is the JSON text [null]
    (on which [message.id] throws) is dropped: the lines around it are
    dispatched exactly as if it were absent. *)
Theorem dispatch_lines_drops_bad_line (r : nat) (l1 : list jstr) (line : jstr) (l2 : list jstr) (g : Gw) :
  trim_nonempty line = false \/ JSON_parse line = None \/ JSON_parse line = Some JNull ->
  dispatch_lines r (l1 ++ line :: l2) g = dispatch_lines r (l1 ++ l2) g.
Proof.
  intros Hl. rewrite !dispatch_lines_app. simpl.
  destruct (trim_nonempty line) eqn:Et; [|reflexivity].
  destruct Hl as [Hl|[Hl|Hl]]; [discriminate|rewrite Hl; reflexivity|rewrite Hl; reflexivity].
Qed.

Lemma dispatch_lines_drops_bad_line_witness :
  (trim_nonempty (js "not json") = false \/ JSON_parse (js "not json") = None \/
   JSON_parse (js "not json") = Some JNull) /\
  dispatch_lines 0 ([] ++ js "not json" :: [jq "{'jsonrpc':'2.0','id':1,'result':{'tools':[]}}"]) g_pending =
  dispatch_lines 0 ([] ++ [jq "{'jsonrpc':'2.0','id':1,'result':{'tools':[]}}"]) g_pending.
Proof.
  assert (H : trim_nonempty (js "not json") = false \/ JSON_parse (js "not json") = None \/
              JSON_parse (js "not json") = Some JNull) by (right; left; vm_compute; reflexivity).
  split; [exact H|]. apply dispatch_lines_drops_bad_line. exact H.
Defined.

(** ** Backend messages that match no pending request *)

(** A backend message whose id is absent or not pending in the session
    (a notification, a late reply, or an id of another type, as the string
    ["1"] for the number 1) answers no HTTP request and changes no pending
    entry: it is only written to the SSE response if one is attached, and
    is otherwise dropped. *)
Theorem handleStdioMessage_unmatched (r : nat) (m : json) (g : Gw) (s : Session) :
  heap g !! r = Some s -> m <> JNull ->
  (forall i, get_field m "id" = Some i -> map_get (KVal i) (pendingRequests s) = None) ->
  handleStdioMessage r m g =
    Some (match sseResponse s with Some res => emit (SsePush res m) g | None => g end).
Proof.
  intros Es Hm Hi.
  assert (Ep : settle_pending r m g = g).
  { unfold settle_pending. destruct (get_field m "id") as [i|] eqn:Ei; [|reflexivity].
    rewrite Es, (Hi i eq_refl). reflexivity. }
  assert (E : handleStdioMessage r m g = Some (push_sse r m (settle_pending r m g)))
    by (destruct m; [contradiction|reflexivity..]).
  rewrite E, Ep. unfold push_sse. rewrite Es. reflexivity.
Qed.

Lemma handleStdioMessage_unmatched_witness :
  heap g_pending !! 0%nat = Some s_pending /\ reply_string_id <> JNull /\
  (forall i, get_field reply_string_id "id" = Some i -> map_get (KVal i) (pendingRequests s_pending) = None) /\
  handleStdioMessage 0 reply_string_id g_pending = Some (emit (SsePush 5 reply_string_id) g_pending).
Proof.
  assert (H1 : heap g_pending !! 0%nat = Some s_pending) by (vm_compute; reflexivity).
  assert (H2 : reply_string_id <> JNull) by discriminate.
  assert (H3 : forall i, get_field reply_string_id "id" = Some i -> map_get (KVal i) (pendingRequests s_pending) = None).
  { intros i Ei. vm_compute in Ei. injection Ei as <-. vm_compute. reflexivity. }
  split; [exact H1|]. split; [exact H2|]. split; [exact H3|].
  exact (handleStdioMessage_unmatched 0 reply_string_id g_pending s_pending H1 H2 H3).
Defined.

(** ** Timers *)

(** The timer's presence check looks at the id only: when a timer fires
    while its id's pending entry belongs to another request [h'] (a later
    request that reused the id), it deletes that entry and answers only its
    own request (if still waiting) with the timeout error; [h'] stays
    waiting, and its entry is gone. *)
Theorem timer_fires_removes_foreign_entry (t : Timer) (g : Gw) (s : Session) (h' : nat) :
  heap g !! t_session t = Some s ->
  map_get (t_id t) (pendingRequests s) = Some h' -> h' <> t_req t ->
  let g' := timer_fires t g in
  heap g' !! t_session t = Some (with_pending (map_delete (t_id t) (pendingRequests s)) s) /\
  map_get (t_id t) (pendingRequests (with_pending (map_delete (t_id t) (pendingRequests s)) s)) = None /\
  (In h' (awaiting g) -> In h' (awaiting g')) /\
  (out g' = out g \/ out g' = out g ++ [HttpResp (t_req t) 200 (timeout_response (key_val (t_id t)))]).
Proof.
  intros Es Eh Hne g'. unfold g', timer_fires. rewrite Es.
  assert (Hh : map_has (t_id t) (pendingRequests s) = true) by (unfold map_has; rewrite Eh; reflexivity).
  rewrite Hh. unfold resolve. rewrite awaiting_upd.
  split.
  { destruct (existsb _ _); simpl; rewrite lookup_upd, decide_True, Es by reflexivity; reflexivity. }
  split; [apply map_get_delete|].
  destruct (existsb _ _); simpl; rewrite ?out_upd, ?awaiting_upd; [|auto].
  split; [|right; reflexivity].
  intros Hin. apply filter_In. split; [exact Hin|]. apply negb_true_iff, Nat.eqb_neq. congruence.
Qed.

Lemma timer_fires_removes_foreign_entry_witness :
  heap g_reuse !! t_session (mkTimer 0 (KVal (JNum 1 0)) 1 30000) = Some s_reuse /\
  map_get (t_id (mkTimer 0 (KVal (JNum 1 0)) 1 30000)) (pendingRequests s_reuse) = Some 2%nat /\
  (2 <> t_req (mkTimer 0 (KVal (JNum 1 0)) 1 30000))%nat /\
  out (timer_fires (mkTimer 0 (KVal (JNum 1 0)) 1 30000) g_reuse) = out g_reuse.
Proof.
  assert (H1 : heap g_reuse !! t_session (mkTimer 0 (KVal (JNum 1 0)) 1 30000) = Some s_reuse) by (vm_compute; reflexivity).
  assert (H2 : map_get (t_id (mkTimer 0 (KVal (JNum 1 0)) 1 30000)) (pendingRequests s_reuse) = Some 2%nat)
    by (vm_compute; reflexivity).
  assert (H3 : (2 <> t_req (mkTimer 0 (KVal (JNum 1 0)) 1 30000))%nat) by (simpl; lia).
  split; [exact H1|]. split; [exact H2|]. split; [exact H3|].
  destruct (timer_fires_removes_foreign_entry _ g_reuse s_reuse 2 H1 H2 H3) as [_ [_ [_ [Eo|Eo]]]];
    [exact Eo|].
  exfalso. revert Eo. vm_compute. discriminate.
Defined.

(** ** The session [handleMessage] works with *)


(** ** The 'exit' of a replaced process *)

(** The 'exit' handler deletes the store entry by session id, not by
    session: when the process of a session [r] that was already replaced
    under its id by another session [r'] (after an 'error') exits, the
    entry of [r'] is deleted, although [r'] itself is left as it was. *)
Theorem proc_exit_removes_replacing_session (g : Gw) (r r' : nat) (s s' : Session) :
  heap g !! r = Some s -> map_get (s_id s) (sessions g) = Some r' -> r' <> r ->
  heap g !! r' = Some s' ->
  let g' := step g (ProcExit r) in
  map_get (s_id s) (sessions g') = None /\ heap g' !! r' = Some s'.
Proof.
  intros Es _ Hne Es' g'. destruct (proc_exit_effects g r s Es) as [Eh [Est _]].
  unfold g'. simpl. rewrite Eh, Est. split; [apply map_get_delete|].
  rewrite lookup_insert_ne by congruence. exact Es'.
Qed.

Lemma proc_exit_removes_replacing_session_witness :
  heap g_replaced !! 0%nat = Some s0_replaced /\
  map_get (s_id s0_replaced) (sessions g_replaced) = Some 1%nat /\ (1 <> 0)%nat /\
  heap g_replaced !! 1%nat = Some s1_replaced /\ connected s1_replaced = true /\
  map_get (KVal defaultSessionId) (sessions (step g_replaced (ProcExit 0))) = None.
Proof.
  assert (H1 : heap g_replaced !! 0%nat = Some s0_replaced) by (vm_compute; reflexivity).
  assert (H2 : map_get (s_id s0_replaced) (sessions g_replaced) = Some 1%nat) by (vm_compute; reflexivity).
  assert (H3 : (1 <> 0)%nat) by lia.
  assert (H4 : heap g_replaced !! 1%nat = Some s1_replaced) by (vm_compute; reflexivity).
  repeat (split; [assumption|]). split; [vm_compute; reflexivity|].
  exact (proj1 (proc_exit_removes_replacing_session g_replaced 0 1 s0_replaced s1_replaced H1 H2 H3 H4)).
Defined.

(** ** POST bodies that are arrays *)

(** A POST body that is a JSON array (a JSON-RPC batch) has no [id]
    property, so it is handled as a notification.  Once a session is
    obtained, the whole array is written to stdin and answered at once with
    HTTP 202 [{}]; no timer or waiting request is created, so the replies to
    the requests in the batch never reach this HTTP response.  When
    creating the session throws, the answer is the HTTP 500
    session-creation error and nothing is written. *)
Theorem array_body_handled_as_notification (g : Gw) (h : nat) (q hd : option jstr)
    (l : list json) (sp : SpawnResult) :
  match message_session (post_session_key h q hd (JArr l)) sp g with
  | Some (r, g1) =>
      handleMessage h q hd (JArr l) sp g = emit (HttpResp h 202 (JObj [])) (emit (StdinWrite r (JArr l)) g1) /\
      timers g1 = timers g /\ awaiting g1 = awaiting g
  | None =>
      handleMessage h q hd (JArr l) sp g =
        emit (HttpResp h 500 (jsonrpc_error (-32603) "Failed to create session")) g
  end.
Proof.
  destruct (notification_handled g h q hd (JArr l) sp eq_refl) as [H1 H2].
  destruct (message_session _ sp g) as [[r g1]|] eqn:Em.
  - destruct (H1 r g1 eq_refl) as [E [Et [Ea _]]]. auto.
  - apply H2. reflexivity.
Qed.

(** ** [JSON.stringify] writes no line terminator *)

Section NoNewline.

Local Abbreviation nonl := (Forall (fun c : Z => c <> 10 /\ c <> 13)).

Lemma hex_digit_nonl (n : Z) : 0 <= n < 16 -> hex_digit n <> 10 /\ hex_digit n <> 13.
Proof. unfold hex_digit. destruct (n <? 10); lia. Qed.

Lemma unicode_escape_nonl (c : Z) : nonl (unicode_escape c).
Proof.
  unfold unicode_escape.
  repeat (apply List.Forall_cons; [try lia|]).
  all: first [apply List.Forall_nil | apply hex_digit_nonl, Z.mod_pos_bound; lia].
Qed.

Lemma quote_unit_nonl (c : Z) : nonl (quote_unit c).
Proof.
  unfold quote_unit.
  destruct (c =? 8); [repeat constructor; lia|].
  destruct (c =? 9); [repeat constructor; lia|].
  destruct (c =? 10) eqn:E10; [repeat constructor; lia|].
  destruct (c =? 12); [repeat constructor; lia|].
  destruct (c =? 13) eqn:E13; [repeat constructor; lia|].
  destruct (c =? 34); [repeat constructor; lia|].
  destruct (c =? 92); [repeat constructor; lia|].
  destruct (_ || _ || _); [apply unicode_escape_nonl|].
  apply List.Forall_cons; [|apply List.Forall_nil].
  split; apply Z.eqb_neq; assumption.
Qed.

Lemma quote_body_nonl (s : jstr) : nonl (quote_body s) /\ forall c, nonl (quote_body (c :: s)).
Proof.
  induction s as [|d r IH].
  - split; [constructor|]. intros c. simpl. destruct (is_lead c); [apply quote_unit_nonl|].
    rewrite app_nil_r. apply quote_unit_nonl.
  - destruct IH as [IH1 IH2]. split; [apply IH2|]. intros c.
    cbn [quote_body]. destruct (is_lead c) eqn:El.
    + destruct (is_trail d) eqn:Et.
      * unfold is_lead, is_trail in *. apply andb_prop in El as [El _]. apply andb_prop in Et as [Et _].
        apply Z.leb_le in El. apply Z.leb_le in Et.
        constructor; [lia|]. constructor; [lia|]. exact IH1.
      * apply Forall_app. split; [apply quote_unit_nonl | apply IH2].
    + apply Forall_app. split; [apply quote_unit_nonl | apply IH2].
Qed.

Lemma quote_nonl (s : jstr) : nonl (quote s).
Proof.
  unfold quote. apply Forall_app. split; [repeat constructor; lia|].
  apply Forall_app. split; [apply quote_body_nonl | repeat constructor; lia].
Qed.

Lemma dec_digits_nonl (f : nat) : forall (n : Z) (acc : jstr), 0 <= n -> nonl acc -> nonl (dec_digits f n acc).
Proof.
  induction f as [|f IH]; intros n acc Hn Hacc; simpl; [exact Hacc|].
  destruct (n <? 10); [constructor; [lia | exact Hacc]|].
  apply IH; [apply Z.div_pos; lia|]. constructor; [|exact Hacc].
  pose proof (Z.mod_pos_bound n 10 ltac:(lia)). lia.
Qed.

Lemma Z_digits_nonl (n : Z) : 0 <= n -> nonl (Z_digits n).
Proof. intros Hn. apply dec_digits_nonl; [exact Hn | constructor]. Qed.

Lemma repeat_nonl (c : Z) (k : nat) : c <> 10 /\ c <> 13 -> nonl (repeat c k).
Proof. intros Hc. induction k; simpl; constructor; auto. Qed.

Lemma number_to_string_nonl (m e : Z) : nonl (number_to_string m e).
Proof.
  unfold number_to_string. destruct (norm_num _ m e) as [m' e'].
  destruct (m' =? 0); [repeat constructor; lia|].
  pose proof (Z_digits_nonl (Z.abs m') ltac:(lia)) as Hd.
  remember (Z_digits (Z.abs m')) as ds eqn:Eds. clear Eds. cbv zeta.
  apply Forall_app. split; [destruct (m' <? 0); repeat constructor; lia|].
  destruct (_ && _); [apply Forall_app; split; [exact Hd | apply repeat_nonl; lia]|].
  destruct (_ && _).
  { apply Forall_app. split; [apply Forall_take; exact Hd|].
    constructor; [lia | apply Forall_drop; exact Hd]. }
  destruct (_ && _).
  { apply Forall_app. split; [repeat constructor; lia|].
    apply Forall_app. split; [apply repeat_nonl; lia | exact Hd]. }
  destruct ds as [|d rest]; [constructor|]. inversion Hd as [|? ? Hd0 Hrest]; subst.
  apply Forall_app. split; [constructor; [exact Hd0 | constructor]|].
  apply Forall_app. split; [destruct rest; [constructor | constructor; [lia | exact Hrest]]|].
  apply Forall_app. split; [|apply Z_digits_nonl; lia].
  constructor; [lia|]. constructor; [destruct (_ <? 0); lia | constructor].
Qed.

Lemma join_with_nonl (sep : Z) (l : list jstr) : sep <> 10 /\ sep <> 13 -> Forall nonl l -> nonl (join_with sep l).
Proof.
  intros Hs. induction 1 as [|x l Hx Hl IH]; simpl; [constructor|].
  destruct l as [|y l]; [exact Hx|]. apply Forall_app. split; [exact Hx|]. constructor; [exact Hs | exact IH].
Qed.

End NoNewline.

Lemma create_props_Forall {A} (P : jstr * A -> Prop) (l : list (jstr * A)) :
  Forall P l -> Forall P (create_props l).
Proof.
  unfold create_props. intros Hl.
  match goal with |- Forall P (fold_left ?f l []) =>
    enough (G : forall acc, Forall P acc -> Forall P (fold_left f l acc)) by (apply G; constructor) end.
  induction Hl as [|x l Hx Hl IH]; intros acc Hacc; simpl; [exact Hacc|].
  apply IH. destruct (existsb _ acc).
  - apply List.Forall_forall. intros y Hy. apply in_map_iff in Hy as [y' [<- Hy']].
    destruct (decide _); [exact Hx | exact (proj1 (List.Forall_forall _ _) Hacc _ Hy')].
  - apply Forall_app. split; [exact Hacc | constructor; [exact Hx | constructor]].
Qed.

Lemma list_filter_Forall {A} (P : A -> Prop) (f : A -> bool) (l : list A) :
  Forall P l -> Forall P (List.filter f l).
Proof. induction 1; simpl; [constructor|]. destruct (f x); [constructor|]; assumption. Qed.

Lemma own_keys_order_Forall {A} (P : jstr * A -> Prop) (l : list (jstr * A)) :
  Forall P l -> Forall P (own_keys_order l).
Proof.
  intros Hl. unfold own_keys_order. apply Forall_app. split; [|apply list_filter_Forall; exact Hl].
  apply (list_filter_Forall P (fun kv => is_array_index kv.1)) in Hl.
  induction Hl as [|x l' Hx _ IH]; simpl; [constructor|].
  clear -Hx IH. induction IH as [|y l'' Hy Hl'' IH']; simpl; [constructor; [exact Hx | constructor]|].
  destruct (_ <? _); constructor; auto.
Qed.

(** [JSON.stringify] writes no line terminator: neither LF nor CR. *)
Lemma JSON_stringify_noterm : forall v : json, Forall (fun c : Z => c <> 10 /\ c <> 13) (JSON_stringify v).
Proof.
  fix IH 1. intros [| b | m e | s | l | l].
  - vm_compute. repeat constructor; discriminate.
  - destruct b; vm_compute; repeat constructor; discriminate.
  - apply number_to_string_nonl.
  - apply quote_nonl.
  - assert (Hl : Forall (Forall (fun c : Z => c <> 10 /\ c <> 13)) (map JSON_stringify l)).
    { revert l. fix IHl 1. intros [|x l']; simpl; constructor; [apply IH | apply IHl]. }
    simpl. constructor; [lia|].
    apply Forall_app. split; [apply join_with_nonl; [lia | exact Hl] | repeat constructor; lia].
  - assert (Hl : Forall (fun kv : jstr * jstr => Forall (fun c : Z => c <> 10 /\ c <> 13) kv.2)
                   (map (fun kv => (kv.1, JSON_stringify kv.2)) l)).
    { revert l. fix IHl 1. intros [|[k x] l']; simpl; constructor; [apply IH | apply IHl]. }
    apply create_props_Forall, own_keys_order_Forall in Hl.
    simpl. constructor; [lia|].
    apply Forall_app. split; [|repeat constructor; lia].
    apply join_with_nonl; [lia|].
    apply List.Forall_forall. intros y Hy. apply in_map_iff in Hy as [kv [<- Hkv]].
    apply (Forall_app_2 _ (quote kv.1)); [apply quote_nonl|]. constructor; [lia|].
    exact (proj1 (List.Forall_forall _ _) Hl _ Hkv).
Qed.

Lemma JSON_stringify_nonl (v : json) : Forall (fun c : Z => c <> 10) (JSON_stringify v).
Proof. eapply Forall_impl; [apply JSON_stringify_noterm | intros c [H _]; exact H]. Qed.

Lemma split_nl_nonl (x Y : jstr) (y : jstr) (ys : list jstr) :
  Forall (fun c : Z => c <> 10) x -> split_nl Y = y :: ys -> split_nl (x ++ Y) = (x ++ y) :: ys.
Proof.
  intros Hx EY. induction Hx as [|c x Hc _ IH]; [exact EY|].
  cbn [app split_nl]. rewrite IH. rewrite (proj2 (Z.eqb_neq c 10) Hc). reflexivity.
Qed.

(** The line [sendToStdio] writes for any message has no newline before
    its terminator: the backend reads it as exactly one line. *)
Theorem stdin_line_single_line (m : json) : split_nl (stdin_line m) = [JSON_stringify m; []].
Proof.
  unfold stdin_line. rewrite (split_nl_nonl _ [10] [] [[]] (JSON_stringify_nonl m) eq_refl).
  rewrite app_nil_r. reflexivity.
Qed.

Lemma sse_lines_noterm (x Y : jstr) (y : jstr) (ys : list jstr) :
  Forall (fun c : Z => c <> 10 /\ c <> 13) x -> sse_lines Y = y :: ys -> sse_lines (x ++ Y) = (x ++ y) :: ys.
Proof.
  intros Hx EY. induction Hx as [|c x [Hc1 Hc2] _ IH]; [exact EY|].
  cbn [app sse_lines]. rewrite IH, (proj2 (Z.eqb_neq c 13) Hc2), (proj2 (Z.eqb_neq c 10) Hc1). reflexivity.
Qed.

(** The text [handleStdioMessage] writes to the SSE response for any
    message: the serialized message holds no line terminator (LF or CR), so
    the client reads one [data:] line carrying the whole message, then the
    blank line that dispatches the event, and nothing after it. *)
Theorem sse_frame_single_event (m : json) :
  Forall (fun c : Z => c <> 10 /\ c <> 13) (JSON_stringify m) /\
  sse_lines (sse_frame m) = [js "data: " ++ JSON_stringify m; []; []].
Proof.
  split; [apply JSON_stringify_noterm|].
  unfold sse_frame. rewrite app_assoc.
  assert (H : Forall (fun c : Z => c <> 10 /\ c <> 13) (js "data: " ++ JSON_stringify m)).
  { apply Forall_app. split; [vm_compute; repeat constructor; discriminate | apply JSON_stringify_noterm]. }
  rewrite (sse_lines_noterm _ [10; 10] [] [[]; []] H eq_refl). rewrite app_nil_r. reflexivity.
Qed.

(** ** [MCP_ARGS] *)

Lemma js_split_join (sep : Z) (s : jstr) :
  join_with sep (js_split sep s) = s /\ Forall (fun a => ~ In sep a) (js_split sep s) /\
  js_split sep s <> [].
Proof.
  induction s as [|c r [J [F NE]]]; [split; [reflexivity|]; split; [repeat constructor; intros []|discriminate]|].
  cbn [js_split]. destruct (js_split sep r) as [|x xs] eqn:E; [contradiction|].
  destruct (c =? sep) eqn:Ec.
  - apply Z.eqb_eq in Ec. subst c. split; [|split; [constructor; [intros []|exact F] | discriminate]].
    change (join_with sep ([] :: x :: xs)) with ([] ++ sep :: join_with sep (x :: xs)). rewrite J. reflexivity.
  - apply Z.eqb_neq in Ec. apply Forall_cons in F as [Fx Fxs]. split.
    + destruct xs as [|y ys]; [exact (f_equal (cons c) J)|].
      change (join_with sep ((c :: x) :: y :: ys)) with (c :: (x ++ sep :: join_with sep (y :: ys))).
      change (join_with sep (x :: y :: ys)) with (x ++ sep :: join_with sep (y :: ys)) in J.
      rewrite J. reflexivity.
    + split; [|discriminate]. constructor; [|exact Fxs]. intros [H|H]; [congruence | exact (Fx H)].
Qed.

(** The arguments given to [spawn]: an unset or empty [MCP_ARGS] gives
    none; otherwise [MCP_ARGS] is cut at every comma, so no argument
    contains a comma (an argument cannot carry one) and joining the
    arguments with commas gives [MCP_ARGS] back (an empty argument is kept
    for two adjacent commas or a comma at either end). *)
Theorem mcp_args_split (s : jstr) :
  s <> [] ->
  mcp_args None = [] /\ mcp_args (Some []) = [] /\
  join_with 44 (mcp_args (Some s)) = s /\ Forall (fun a => ~ In 44 a) (mcp_args (Some s)).
Proof.
  intros Hs. split; [reflexivity|]. split; [reflexivity|].
  destruct s as [|c r]; [contradiction|]. simpl mcp_args.
  destruct (js_split_join 44 (c :: r)) as [J [F _]]. auto.
Qed.

Lemma mcp_args_split_witness :
  js "-jar,server.jar,,conn" <> [] /\
  mcp_args (Some (js "-jar,server.jar,,conn")) = [js "-jar"; js "server.jar"; []; js "conn"].
Proof.
  assert (H : js "-jar,server.jar,,conn" <> []) by discriminate.
  split; [exact H|].
  destruct (mcp_args_split _ H) as [_ [_ [J _]]]. vm_compute. reflexivity.
Defined.
